(** * pad / picdate: stamping the capture date onto photographs

    A shallow embedding of [pad/pad.py] and [picdate/picdate.py] and the
    properties of their date resolution, geometry, single-image worker and
    directory scheduler.

    Conventions of the embedding:
    - Python [str] is [string]; [dict] is a [gmap]; [int] is [Z].
    - Python [float] arithmetic is reached through the interface [FloatOps];
      the instance [Float64] computes in IEEE binary64 as CPython does, the
      instance [QFloat] reads the arithmetic as exact rational arithmetic.
    - Everything the programs obtain from Pillow, [datetime], [fractions],
      [pathlib] and the file system is a member of the interface [Env].
    - A call that may raise returns [exn + A]; the worker runs in the
      monad [M], which also records what it prints and writes.
    - How [print] shows the parsed arguments is the interface [Repr]. *)

From Stdlib Require Import ZArith QArith Qround Qfield Lia Lqa Bool List.
From Stdlib Require Import Strings.String Strings.Ascii.
From Stdlib Require Import Floats.SpecFloat.
From stdpp Require Import gmap.

Import ListNotations.
Local Open Scope string_scope.
Local Open Scope Z_scope.

(* ===================================================================== *)
(** * Python string operations used by the programs                      *)
(* ===================================================================== *)

Module PyStr.

(** [count] argument of [str.replace]: [None] is "no limit". *)
Definition may_replace (count : option nat) : bool :=
  match count with
  | None => true
  | Some O => false
  | Some (S _) => true
  end.

Definition used_one (count : option nat) : option nat :=
  match count with
  | None => None
  | Some n => Some (Nat.pred n)
  end.

(** [s.replace(old, new, count)] for a non-empty [old]: a left-to-right
    scan over non-overlapping occurrences.  [skip] counts the characters
    of the occurrence just replaced that are still to be dropped. *)
Fixpoint replace_scan (old new : string) (count : option nat) (skip : nat)
    (s : string) {struct s} : string :=
  match s with
  | EmptyString => EmptyString
  | String c rest =>
      match skip with
      | S k => replace_scan old new count k rest
      | O =>
          if may_replace count && String.prefix old s
          then new ++ replace_scan old new (used_one count)
                        (Nat.pred (String.length old)) rest
          else String c (replace_scan old new count O rest)
      end
  end.

(** [s.replace("", new, count)]: [new] goes before every character and
    at the end, as long as the count allows. *)
Fixpoint replace_empty (new : string) (count : option nat) (s : string)
    : string :=
  if may_replace count then
    match s with
    | EmptyString => new
    | String c rest => new ++ String c (replace_empty new (used_one count) rest)
    end
  else s.

Definition replace (old new : string) (count : option nat) (s : string)
    : string :=
  match old with
  | EmptyString => replace_empty new count s
  | String _ _ => replace_scan old new count O s
  end.

(** [s.lower()] on ASCII letters. *)
Definition lower_ascii (c : ascii) : ascii :=
  let n := nat_of_ascii c in
  if (Nat.leb 65 n && Nat.leb n 90)%bool then ascii_of_nat (n + 32) else c.

Fixpoint lower (s : string) : string :=
  match s with
  | EmptyString => EmptyString
  | String c rest => String (lower_ascii c) (lower rest)
  end.

(** [s.split(sep)] for a one-character separator. *)
Fixpoint split_on (sep : ascii) (cur : string) (s : string) : list string :=
  match s with
  | EmptyString => [cur]
  | String c rest =>
      if Ascii.eqb c sep then cur :: split_on sep EmptyString rest
      else split_on sep (cur ++ String c EmptyString) rest
  end.

Definition split (sep : ascii) (s : string) : list string :=
  split_on sep EmptyString s.

(** [x in xs] for a list of strings. *)
Definition mem (x : string) (xs : list string) : bool :=
  existsb (String.eqb x) xs.

End PyStr.

(* ===================================================================== *)
(** * Dates                                                              *)
(* ===================================================================== *)

(** A naive [datetime.datetime] value. *)
Record datetime := mk_datetime {
  year : Z; month : Z; day : Z;
  hour : Z; minute : Z; second : Z; microsecond : Z
}.

Definition is_leap (y : Z) : bool :=
  (y mod 4 =? 0) && (negb (y mod 100 =? 0) || (y mod 400 =? 0)).

Definition days_in_month (y m : Z) : Z :=
  if m =? 2 then (if is_leap y then 29 else 28)
  else if (m =? 4) || (m =? 6) || (m =? 9) || (m =? 11) then 30
  else 31.

(** The ranges the [datetime] constructor accepts. *)
Definition valid_datetime (d : datetime) : bool :=
  (1 <=? year d) && (year d <=? 9999)
  && (1 <=? month d) && (month d <=? 12)
  && (1 <=? day d) && (day d <=? days_in_month (year d) (month d))
  && (0 <=? hour d) && (hour d <=? 23)
  && (0 <=? minute d) && (minute d <=? 59)
  && (0 <=? second d) && (second d <=? 59)
  && (0 <=? microsecond d) && (microsecond d <=? 999999).

Module Layout.

Definition digit (c : ascii) : option Z :=
  let n := Z.of_nat (nat_of_ascii c) in
  if (48 <=? n) && (n <=? 57) then Some (n - 48) else None.

Definition num2 (a b : ascii) : option Z :=
  match digit a, digit b with
  | Some x, Some y => Some (10 * x + y)
  | _, _ => None
  end.

Definition num3 (a b c : ascii) : option Z :=
  match digit a, num2 b c with
  | Some x, Some y => Some (100 * x + y)
  | _, _ => None
  end.

Definition num4 (a b c d : ascii) : option Z :=
  match num2 a b, num2 c d with
  | Some x, Some y => Some (100 * x + y)
  | _, _ => None
  end.

(** The fields of a 19-character stamp [YYYY?MM?DD hh:mm:ss] whose date
    separator is [dsep]; no range check yet. *)
Definition fields (dsep : ascii) (s : string) : option datetime :=
  match s with
  | String y1 (String y2 (String y3 (String y4 (String p1
    (String m1 (String m2 (String p2
    (String d1 (String d2 (String sp
    (String h1 (String h2 (String c1
    (String i1 (String i2 (String c2
    (String s1 (String s2 EmptyString)))))))))))))))))) =>
      if Ascii.eqb p1 dsep && Ascii.eqb p2 dsep && Ascii.eqb sp " "
         && Ascii.eqb c1 ":" && Ascii.eqb c2 ":"
      then
        match num4 y1 y2 y3 y4, num2 m1 m2, num2 d1 d2,
              num2 h1 h2, num2 i1 i2, num2 s1 s2 with
        | Some y, Some m, Some d, Some h, Some i, Some sec =>
            Some (mk_datetime y m d h i sec 0)
        | _, _, _, _, _, _ => None
        end
      else None
  | _ => None
  end.

Definition checked (d : option datetime) : option datetime :=
  match d with
  | Some d => if valid_datetime d then Some d else None
  | None => None
  end.

(** The layout of the EXIF field DateTimeOriginal (tag 36867),
    [YYYY:MM:DD hh:mm:ss], read as an instant: the stamp is well formed
    when this is [Some]. *)
Definition parse_exif (s : string) : option datetime :=
  checked (fields ":" s).

(** The ISO layout [YYYY-MM-DD hh:mm:ss.fff], read as an instant. *)
Definition parse_iso_millis (s : string) : option datetime :=
  match checked (fields "-" (String.substring 0 19 s)),
        String.substring 19 (String.length s - 19) s with
  | Some d, String dot (String f1 (String f2 (String f3 EmptyString))) =>
      if Ascii.eqb dot "." then
        match num3 f1 f2 f3 with
        | Some ms =>
            Some (mk_datetime (year d) (month d) (day d)
                              (hour d) (minute d) (second d) (ms * 1000))
        | None => None
        end
      else None
  | _, _ => None
  end.

End Layout.

(* ===================================================================== *)
(** * Exceptions, effects and the worker monad                           *)
(* ===================================================================== *)

(** The exceptions the calls of the programs raise; every one of them is
    a subclass of Python's [Exception], the class the worker catches. *)
Inductive exn :=
| ValueError
| KeyError
| TypeError
| AttributeError
| ZeroDivisionError
| OverflowError
| OSError
| UnidentifiedImageError
| UnicodeEncodeError.

(** Python floats and the mixed int/float arithmetic of the programs. *)
Class FloatOps (F : Type) := {
  of_int : Z -> F;                       (* an int operand, promoted *)
  lit_0_01 : F;                          (* the literal 0.01 *)
  fadd : F -> F -> F;
  fsub : F -> F -> F;
  fmul : F -> F -> F;
  fdiv : F -> F -> exn + F;              (* x / y *)
  int_truediv : Z -> Z -> exn + F;       (* m / n on two ints *)
  ffloordiv : F -> F -> exn + F;         (* x // y *)
  fgt : F -> F -> bool;                  (* x > y *)
  flt : F -> F -> bool;                  (* x < y *)
  to_int : F -> exn + Z                  (* int(x) *)
}.

(** Values of an EXIF dictionary. *)
Inductive exif_value :=
| ExifStr (s : string)
| ExifInt (n : Z).

(** An opened image, as far as the programs look at it. *)
Record image := mk_image {
  size : Z * Z;                                   (* img.size *)
  getexif : exn + option (gmap Z exif_value);     (* img._getexif() *)
  info_exif : option string                       (* img.info["exif"] *)
}.

Record font := mk_font { font_file : string; font_px : Z }.

(** The arguments of [ImageDraw.text]. *)
Record draw_args (F : Type) := mk_draw_args {
  xy : F * F;
  text : string;
  anchor : string;
  fnt : font;
  fill : list Z;
  stroke_width_arg : Z;
  stroke_fill : list Z
}.
Arguments mk_draw_args {F}.
Arguments xy {F}.
Arguments text {F}.

(** What the worker and the scheduler print and write.  [Mkdir path] is
    the call [Path(path).mkdir(parents=True, exist_ok=True)], which makes
    the directory and every missing ancestor of it. *)
Inductive event :=
| Print (msg : string)                 (* print(...) of a notice *)
| PrintExc (e : exn)                   (* print(e, locals()); print_exc() *)
| Mkdir (path : string)                (* mkdir(parents=True, exist_ok=True) *)
| Save (img : image) (path : string) (quality : Z) (embedded : option string)
| Download (url path : string).

(** External collaborators: [datetime], [fractions], Pillow, [pathlib],
    [urllib] and the file system they look at. *)
Class Env (F : Type) := {
  fromisoformat : string -> exn + datetime;
  fromtimestamp : F -> exn + datetime;
  strftime : datetime -> string -> exn + string;
  fraction_to_float : string -> exn + F;          (* float(Fraction(s)) *)
  image_open : string -> exn + image;
  exif_transpose : image -> exn + image;
  truetype : string -> Z -> exn + font;
  draw_text : image -> draw_args F -> exn + image;
  image_save : image -> string -> Z -> option string -> exn + unit;
  st_mtime : string -> exn + F;                   (* Path(p).stat().st_mtime *)
  absolute : string -> string;                    (* str(Path(p).absolute()) *)
  parent : string -> string;
  suffix : string -> string;
  expanduser : string -> string;
  path_exists : string -> bool;
  is_file : string -> bool;
  mkdir_parents : string -> exn + unit;
  glob : string -> bool -> list string;           (* rglob("*") / glob("*") *)
  urlretrieve : string -> string -> exn + unit;
  (* [print(e, locals()); traceback.print_exc(file=sys.stdout)] in the
     worker called with the two paths: the printing raises when stdout
     cannot encode what is printed *)
  print_exception : string -> string -> exn -> exn + unit
}.

(** [str(x)], as an f-string shows a value. *)
Class Repr (A : Type) := repr : A -> string.

(** A computation that prints and writes, and returns or raises. *)
Definition M (A : Type) : Type := list event * (exn + A).

Definition ret {A} (a : A) : M A := ([], inr a).

Definition raise {A} (e : exn) : M A := ([], inl e).

Definition bind {A B} (m : M A) (k : A -> M B) : M B :=
  match m with
  | (tr, inl e) => (tr, inl e)
  | (tr, inr a) => let (tr', r) := k a in ((tr ++ tr')%list, r)
  end.

Definition emit (ev : event) : M unit := ([ev], inr tt).

(** A call of a collaborator. *)
Definition call {A} (r : exn + A) : M A := ([], r).

(** [try: m except Exception as e: h e]. *)
Definition try_except {A} (m : M A) (h : exn -> M A) : M A :=
  match m with
  | (tr, inl e) => let (tr', r) := h e in ((tr ++ tr')%list, r)
  | (tr, inr a) => (tr, inr a)
  end.

Notation "'let*' x := m 'in' k" := (bind m (fun x => k))
  (at level 10, x pattern, m at level 100, k at level 200).
Notation "'do' m 'then' k" := (bind m (fun _ => k))
  (at level 10, m at level 100, k at level 200).

(** The handler of the worker, lines 66-70 of pad.py and 96-101 of
    picdate.py: [print(e, locals())] and then
    [traceback.print_exc(file=sys.stdout)].  Nothing guards the printing,
    so an exception it raises leaves the worker. *)
Definition report {F} {E : Env F} (inpath outpath : string) (e : exn)
    : M unit :=
  do call (print_exception inpath outpath e) then emit (PrintExc e).

Definition trace {A} (m : M A) : list event := fst m.
Definition outcome {A} (m : M A) : exn + A := snd m.

(** Where a resolved date came from. *)
Inductive date_source := metadataOriginal | fileModifiedTime.

Record resolved_date := mk_resolved {
  instant : datetime;
  source : date_source
}.

(** The EXIF tag DateTimeOriginal. *)
Definition DateTimeOriginal : Z := 36867.

(** [date.replace(":", "-", 2) + ".000"]. *)
Definition iso_stamp (date : string) : string :=
  PyStr.replace ":" "-" (Some 2%nat) date ++ ".000".

(** [exif is None or 36867 not in exif.keys()]. *)
Definition lacks_original (exif : option (gmap Z exif_value)) : bool :=
  match exif with
  | None => true
  | Some d => match d !! DateTimeOriginal with None => true | Some _ => false end
  end.

(** [exif[36867]]. *)
Definition exif_original (exif : option (gmap Z exif_value)) : exn + exif_value :=
  match exif with
  | None => inl TypeError
  | Some d => match d !! DateTimeOriginal with
              | None => inl KeyError
              | Some v => inr v
              end
  end.

(** [date.replace(":", "-", 2) + ".000"] on whatever the tag holds. *)
Definition stamp_of_value (v : exif_value) : exn + string :=
  match v with
  | ExifStr s => inr (iso_stamp s)
  | ExifInt _ => inl AttributeError
  end.

Definition fallback_notice (inpath : string) : string :=
  "'" ++ inpath ++ "' does not have exif info, use modified date instead".

(* ===================================================================== *)
(** * The directory scheduler (the same text in both programs)           *)
(* ===================================================================== *)

Module Scheduler.
Section Scheduler.
Context {F : Type} {E : Env F}.

(** One submitted task: the arguments of [pool.apply_async]. *)
Record task (C : Type) := mk_task {
  in_path : string;
  out_path : string;
  task_config : C
}.
Arguments mk_task {C}.
Arguments in_path {C}.
Arguments out_path {C}.

(** [["." + str(i).lower() for i in config["img_exts"].split(",")]]. *)
Definition allowed_exts (img_exts : string) : list string :=
  map (fun i => "." ++ PyStr.lower i) (PyStr.split "," img_exts).

(** [str(in_path).replace(str(Path(in_dir).absolute()),
                          str(Path(out_dir).absolute()))]. *)
Definition mirror (in_dir out_dir in_path : string) : string :=
  PyStr.replace (absolute in_dir) (absolute out_dir) None in_path.

Definition exists_notice (out : string) : string :=
  "'" ++ out ++ "' exists and overwrite is set to False.".

Definition same_notice (out inp : string) : string :=
  "Out '" ++ out ++ "' equals to In '" ++ inp
  ++ "'. Please specify other path".

(** The loop [for file in files] that fills [tasks]; the file system is
    the one seen while the loop runs. *)
Fixpoint submit_tasks {C} (in_dir out_dir : string) (overwrite : bool)
    (cfg : C) (exts : list string) (files : list string)
    : list event * list (task C) :=
  match files with
  | [] => ([], [])
  | file :: rest =>
      let (tr, tasks) := submit_tasks in_dir out_dir overwrite cfg exts rest in
      if negb (PyStr.mem (PyStr.lower (suffix file)) exts) then (tr, tasks)
      else
        let inp := absolute file in
        let out := mirror in_dir out_dir inp in
        if negb overwrite && path_exists out
        then (Print (exists_notice out) :: tr, tasks)
        else if String.eqb inp out
        then (Print (same_notice out inp) :: tr, tasks)
        else (tr, mk_task inp out cfg :: tasks)
  end.

(** What [task.get(10)] does in the coordinator. *)
Inductive get_result :=
| Got (r : exn + unit)     (* the worker's return value or its exception *)
| TimeoutError
| KeyboardInterrupt.

(** The loop [for task in tasks]; [Some 1] is [return 1], [None] is
    reaching [pool.close()]. *)
Fixpoint await (results : list get_result) : M (option Z) :=
  match results with
  | [] => ret None
  | Got (inr _) :: rest => await rest
  | Got (inl e) :: _ => raise e
  | TimeoutError :: rest => do emit (Print "TLE") then await rest
  | KeyboardInterrupt :: _ => ret (Some 1)
  end.

(** How the pool fares with a task within the bounded wait. *)
Inductive wait := Finished | TimedOut | Interrupted.

Definition get {C} (worker : string -> string -> C -> M unit)
    (timing : task C -> wait) (t : task C) : get_result :=
  match timing t with
  | Finished => Got (outcome (worker (in_path t) (out_path t) (task_config C t)))
  | TimedOut => TimeoutError
  | Interrupted => KeyboardInterrupt
  end.

(** [add_date_in_dir_mt]: the submitted tasks and the coordinator's own
    run. *)
Definition add_date_in_dir_mt {C} (worker : string -> string -> C -> M unit)
    (img_exts : C -> string)
    (in_dir out_dir : string) (recursive overwrite : bool) (cfg : C)
    (timing : task C -> wait) : list (task C) * M (option Z) :=
  let files := glob in_dir recursive in
  let (tr, tasks) :=
    submit_tasks in_dir out_dir overwrite cfg (allowed_exts (img_exts cfg)) files in
  let r := await (map (get worker timing) tasks) in
  (tasks, ((tr ++ trace r)%list, outcome r)).

End Scheduler.
Arguments mk_task {C}.
Arguments in_path {C}.
Arguments out_path {C}.
Arguments task_config {C}.
End Scheduler.

(* ===================================================================== *)
(** * pad/pad.py                                                         *)
(* ===================================================================== *)

Module Pad.

Record config (F : Type) := mk_config {
  text_color : list Z;
  text_anchor : string;
  pos_h : F;
  pos_w : F;
  stroke_width : Z;
  stroke_color : list Z;
  quality : Z;
  format : string;
  font_path : string;
  img_exts : string
}.
Arguments mk_config {F}.
Arguments text_color {F}.
Arguments text_anchor {F}.
Arguments pos_h {F}.
Arguments pos_w {F}.
Arguments stroke_width {F}.
Arguments stroke_color {F}.
Arguments quality {F}.
Arguments format {F}.
Arguments font_path {F}.
Arguments img_exts {F}.

(** The state of [add_date_to_img] once the date text is known. *)
Record prepared := mk_prepared {
  p_img : image;
  p_exif : option (gmap Z exif_value);
  p_date : resolved_date;
  p_text : string;
  p_width : Z;
  p_height : Z
}.

(** What [get_args] returns. *)
Record args (F : Type) := mk_args {
  a_src : string;
  a_dst : string;
  a_force : bool;
  a_recursive : bool;
  a_text_color : list Z;
  a_text_anchor : string;
  a_pos_w : F;
  a_pos_h : F;
  a_stroke_width : Z;
  a_stroke_color : list Z;
  a_quality : Z;
  a_format : string;
  a_img_exts : string
}.
Arguments mk_args {F}.
Arguments a_src {F}.
Arguments a_dst {F}.
Arguments a_force {F}.
Arguments a_recursive {F}.
Arguments a_text_color {F}.
Arguments a_text_anchor {F}.
Arguments a_pos_w {F}.
Arguments a_pos_h {F}.
Arguments a_stroke_width {F}.
Arguments a_stroke_color {F}.
Arguments a_quality {F}.
Arguments a_format {F}.
Arguments a_img_exts {F}.

(** What [cli] goes on to do once the configuration is built. *)
Inductive cli_action (F : Type) :=
| SysExit (code : Z)
| RunWorker (inpath outpath : string) (cfg : config F)
| RunBatch (in_dir out_dir : string) (recursive overwrite : bool)
           (cfg : config F).
Arguments SysExit {F}.
Arguments RunWorker {F}.
Arguments RunBatch {F}.

Section Worker.
Context {F : Type} {FO : FloatOps F} {E : Env F} {RA : Repr (args F)}.

(** Lines 17-28: the date from EXIF or from [st_mtime]. *)
Definition resolve_date (inpath : string)
    (exif : option (gmap Z exif_value)) : M resolved_date :=
  if lacks_original exif then
    do emit (Print (fallback_notice inpath)) then
    let* mtime := call (st_mtime inpath) in
    let* date := call (fromtimestamp mtime) in
    ret (mk_resolved date fileModifiedTime)
  else
    let* v := call (exif_original exif) in
    let* stamp := call (stamp_of_value v) in
    let* date := call (fromisoformat stamp) in
    ret (mk_resolved date metadataOriginal).

(** Lines 13-31. *)
Definition prepare (inpath : string) (cfg : config F) : M prepared :=
  let* img := call (image_open inpath) in
  let '(width, height) := size img in
  let* exif := call (getexif img) in
  let* date := resolve_date inpath exif in
  let* text := call (strftime (instant date) (format cfg)) in
  ret (mk_prepared img exif date text width height).

(** Line 34. *)
Definition font_size (width height : Z) : Z :=
  (if width >? height then width else height) / 36.

(** Lines 52-64, shared with picdate. *)
Definition save_image (img : image) (exif : option (gmap Z exif_value))
    (outpath : string) (q : Z) : M unit :=
  let dir := parent (absolute outpath) in
  do (if path_exists dir then ret tt
      else do call (mkdir_parents dir) then emit (Mkdir dir)) then
  match exif with
  | None =>
      do call (image_save img outpath q None) then
      emit (Save img outpath q None)
  | Some _ =>
      match info_exif img with
      | None => raise KeyError
      | Some raw =>
          do call (image_save img outpath q (Some raw)) then
          emit (Save img outpath q (Some raw))
      end
  end.

(** Lines 33-64. *)
Definition finish (outpath : string) (cfg : config F) (p : prepared)
    : M unit :=
  let width := p_width p in
  let height := p_height p in
  let* f := call (truetype (font_path cfg) (font_size width height)) in
  let* img := call (draw_text (p_img p)
                (mk_draw_args
                   (fmul (of_int width) (pos_w cfg),
                    fmul (of_int height) (pos_h cfg))
                   (p_text p) (text_anchor cfg) f (text_color cfg)
                   (stroke_width cfg) (stroke_color cfg))) in
  save_image img (p_exif p) outpath (quality cfg).

Definition add_date_to_img_body (inpath outpath : string) (cfg : config F)
    : M unit :=
  let* p := prepare inpath cfg in
  finish outpath cfg p.

(** Lines 11-70: the body inside [try: ... except Exception as e:], and
    the handler. *)
Definition add_date_to_img (inpath outpath : string) (cfg : config F)
    : M unit :=
  try_except (add_date_to_img_body inpath outpath cfg)
             (report inpath outpath).

Definition add_date_in_dir_mt :=
  Scheduler.add_date_in_dir_mt add_date_to_img img_exts.

Definition font_url : string :=
  "https://github.com/aben20807/pad/blob/master/font/CursedTimerUlil-Aznm.ttf?raw=true".

(** Lines 191-202: the [config] dictionary. *)
Definition config_of_args (a : args F) : config F :=
  mk_config (a_text_color a) (a_text_anchor a) (a_pos_h a) (a_pos_w a)
            (a_stroke_width a) (a_stroke_color a) (a_quality a) (a_format a)
            (expanduser "~/.cache/pad/CursedTimerUlil-Aznm.ttf")
            (a_img_exts a).

(** Lines 204-210: the font is fetched once. *)
Definition ensure_font (cfg : config F) : M unit :=
  if negb (path_exists (font_path cfg)) then
    do emit (Print ("download font file from online to " ++ font_path cfg)) then
    do call (mkdir_parents (parent (font_path cfg))) then
    do emit (Mkdir (parent (font_path cfg))) then
    do call (urlretrieve font_url (font_path cfg)) then
    emit (Download font_url (font_path cfg))
  else ret tt.

(** Lines 187-221, up to the call of the worker or of the scheduler. *)
Definition cli (a : args F) : M (cli_action F) :=
  do emit (Print ("args: " ++ repr a)) then
  let cfg := config_of_args a in
  do ensure_font cfg then
  if path_exists (a_src a) && is_file (a_src a) then
    if negb (is_file (a_dst a)) then
      do emit (Print "Error: Because 'args.src' is a file, 'args.dst' should be also a file") then
      ret (SysExit 1)
    else if negb (a_force a) && path_exists (a_dst a) then
      do emit (Print ("'" ++ a_dst a ++ "' exists and 'args.force' (overwrite) is set to False.")) then
      ret (SysExit 1)
    else ret (RunWorker (a_src a) (a_dst a) cfg)
  else
    ret (RunBatch (a_src a) (a_dst a) (a_recursive a) (a_force a) cfg).

End Worker.
End Pad.

(* ===================================================================== *)
(** * picdate/picdate.py                                                 *)
(* ===================================================================== *)

Module Picdate.

Record config (F : Type) := mk_config {
  text_size : F;
  text_color : list Z;
  text_anchor : string;
  pos_y : F;
  pos_x : F;
  fine_tune_aspect_ratio : string;
  stroke_width : Z;
  stroke_color : list Z;
  quality : Z;
  format : string;
  font_path : string;
  img_exts : string
}.
Arguments mk_config {F}.
Arguments text_size {F}.
Arguments text_color {F}.
Arguments text_anchor {F}.
Arguments pos_y {F}.
Arguments pos_x {F}.
Arguments fine_tune_aspect_ratio {F}.
Arguments stroke_width {F}.
Arguments stroke_color {F}.
Arguments quality {F}.
Arguments format {F}.
Arguments font_path {F}.
Arguments img_exts {F}.

Record prepared := mk_prepared {
  p_img : image;
  p_exif : option (gmap Z exif_value);
  p_date : resolved_date;
  p_text : string;
  p_width : Z;
  p_height : Z
}.

(** What [get_args] returns. *)
Record args (F : Type) := mk_args {
  a_src : string;
  a_dst : string;
  a_force : bool;
  a_recursive : bool;
  a_jobs : Z;
  a_text_size : F;
  a_text_color : list Z;
  a_text_anchor : string;
  a_pos_x : F;
  a_pos_y : F;
  a_fine_tune_aspect_ratio : string;
  a_stroke_width : Z;
  a_stroke_color : list Z;
  a_quality : Z;
  a_format : string;
  a_img_exts : string
}.
Arguments mk_args {F}.
Arguments a_src {F}.
Arguments a_dst {F}.
Arguments a_force {F}.
Arguments a_recursive {F}.
Arguments a_jobs {F}.
Arguments a_text_size {F}.
Arguments a_text_color {F}.
Arguments a_text_anchor {F}.
Arguments a_pos_x {F}.
Arguments a_pos_y {F}.
Arguments a_fine_tune_aspect_ratio {F}.
Arguments a_stroke_width {F}.
Arguments a_stroke_color {F}.
Arguments a_quality {F}.
Arguments a_format {F}.
Arguments a_img_exts {F}.

(** What [cli] goes on to do once the configuration is built. *)
Inductive cli_action (F : Type) :=
| SysExit (code : Z)
| RunWorker (inpath outpath : string) (cfg : config F)
| RunBatch (in_dir out_dir : string) (recursive overwrite : bool)
           (cfg : config F) (jobs : Z).
Arguments SysExit {F}.
Arguments RunWorker {F}.
Arguments RunBatch {F}.

Section Worker.
Context {F : Type} {FO : FloatOps F} {E : Env F} {RA : Repr (args F)}.

(** Lines 20-33: the date from EXIF or from [st_mtime]; in the EXIF
    branch the image is rotated as its EXIF orientation says. *)
Definition resolve_date (inpath : string) (img : image)
    (exif : option (gmap Z exif_value)) : M (resolved_date * image) :=
  if lacks_original exif then
    do emit (Print (fallback_notice inpath)) then
    let* mtime := call (st_mtime inpath) in
    let* date := call (fromtimestamp mtime) in
    ret (mk_resolved date fileModifiedTime, img)
  else
    let* v := call (exif_original exif) in
    let* stamp := call (stamp_of_value v) in
    let* date := call (fromisoformat stamp) in
    let* img' := call (exif_transpose img) in
    ret (mk_resolved date metadataOriginal, img').

(** Lines 16-39. *)
Definition prepare (inpath : string) (cfg : config F) : M prepared :=
  let* img := call (image_open inpath) in
  let* exif := call (getexif img) in
  let* (date, img) := resolve_date inpath img exif in
  let* text := call (strftime (instant date) (format cfg)) in
  let '(width, height) := size img in
  ret (mk_prepared img exif date text width height).

(** [(x - y) / 2]. *)
Definition half_excess (x y : F) : exn + F :=
  fdiv (fsub x y) (of_int 2).

(** Lines 44-53: the offsets [(offset_w, offset_h)] for a cropping to
    [aspect_ratio]; both start as the int [0]. *)
Definition fine_tune (aspect_ratio : F) (width height : Z) : exn + (F * F) :=
  let zero := of_int 0 in
  if width >? height then
    match int_truediv width height with
    | inl e => inl e
    | inr wh =>
        match fdiv (of_int 1) aspect_ratio with
        | inl e => inl e
        | inr inv =>
            if fgt wh (fadd inv lit_0_01) then
              match half_excess (of_int width) (fmul inv (of_int height)) with
              | inl e => inl e
              | inr offset_w => inr (offset_w, zero)
              end
            else if flt wh (fsub inv lit_0_01) then
              match half_excess (of_int height)
                                (fmul aspect_ratio (of_int width)) with
              | inl e => inl e
              | inr offset_h => inr (zero, offset_h)
              end
            else inr (zero, zero)
        end
    end
  else
    match int_truediv width height with
    | inl e => inl e
    | inr wh =>
        if fgt wh (fadd aspect_ratio lit_0_01) then
          match half_excess (of_int width)
                            (fmul aspect_ratio (of_int height)) with
          | inl e => inl e
          | inr offset_w => inr (offset_w, zero)
          end
        else if flt wh (fsub aspect_ratio lit_0_01) then
          match fdiv (of_int 1) aspect_ratio with
          | inl e => inl e
          | inr inv =>
              match half_excess (of_int height) (fmul inv (of_int width)) with
              | inl e => inl e
              | inr offset_h => inr (zero, offset_h)
              end
          end
        else inr (zero, zero)
    end.

Definition fine_tune_notice (inpath : string) : string :=
  "'" ++ inpath ++ "' fine tune for cropping into aspect ratio".

(** Lines 40-56. *)
Definition crop_offsets (inpath : string) (cfg : config F)
    (width height : Z) : M (F * F) :=
  if negb (String.eqb (fine_tune_aspect_ratio cfg) "none") then
    let* aspect_ratio := call (fraction_to_float (fine_tune_aspect_ratio cfg)) in
    let* (offset_w, offset_h) := call (fine_tune aspect_ratio width height) in
    do (if fgt offset_h (of_int 0) || fgt offset_w (of_int 0)
        then emit (Print (fine_tune_notice inpath)) else ret tt) then
    ret (offset_w, offset_h)
  else ret (of_int 0, of_int 0).

(** Lines 59-62: [int(float(text_size) * max(width, height) // 152)]. *)
Definition font_size (cfg : config F) (width height : Z) : exn + Z :=
  match ffloordiv (fmul (text_size cfg) (of_int (Z.max width height)))
                  (of_int 152) with
  | inl e => inl e
  | inr sz => to_int sz
  end.

(** Lines 68-72: the point handed to [draw.text]. *)
Definition draw_point (cfg : config F) (width height : Z)
    (offset_w offset_h : F) : F * F :=
  (fmul (fsub (of_int width) offset_w) (pos_x cfg),
   fmul (fsub (of_int height) offset_h) (pos_y cfg)).

(** Lines 82-94. *)
Definition save_image (img : image) (exif : option (gmap Z exif_value))
    (outpath : string) (q : Z) : M unit :=
  let dir := parent (absolute outpath) in
  do (if path_exists dir then ret tt
      else do call (mkdir_parents dir) then emit (Mkdir dir)) then
  match exif with
  | None =>
      do call (image_save img outpath q None) then
      emit (Save img outpath q None)
  | Some _ =>
      match info_exif img with
      | None => raise KeyError
      | Some raw =>
          do call (image_save img outpath q (Some raw)) then
          emit (Save img outpath q (Some raw))
      end
  end.

(** Lines 40-94. *)
Definition finish (inpath outpath : string) (cfg : config F) (p : prepared)
    : M unit :=
  let width := p_width p in
  let height := p_height p in
  let* (offset_w, offset_h) := crop_offsets inpath cfg width height in
  let* px := call (font_size cfg width height) in
  let* f := call (truetype (font_path cfg) px) in
  let* img := call (draw_text (p_img p)
                (mk_draw_args
                   (draw_point cfg width height offset_w offset_h)
                   (p_text p) (text_anchor cfg) f (text_color cfg)
                   (stroke_width cfg) (stroke_color cfg))) in
  save_image img (p_exif p) outpath (quality cfg).

Definition add_date_to_img_body (inpath outpath : string) (cfg : config F)
    : M unit :=
  let* p := prepare inpath cfg in
  finish inpath outpath cfg p.

(** Lines 14-101: the body inside [try: ... except Exception as e:], and
    the handler. *)
Definition add_date_to_img (inpath outpath : string) (cfg : config F)
    : M unit :=
  try_except (add_date_to_img_body inpath outpath cfg)
             (report inpath outpath).

Definition add_date_in_dir_mt :=
  Scheduler.add_date_in_dir_mt add_date_to_img img_exts.

Definition font_url : string :=
  "https://github.com/aben20807/picdate/blob/master/font/CursedTimerUlil-Aznm.ttf?raw=true".

(** Lines 268-281: the [config] dictionary. *)
Definition config_of_args (a : args F) : config F :=
  mk_config (a_text_size a) (a_text_color a) (a_text_anchor a)
            (a_pos_y a) (a_pos_x a) (a_fine_tune_aspect_ratio a)
            (a_stroke_width a) (a_stroke_color a) (a_quality a)
            (a_format a)
            (expanduser "~/.cache/picdate/CursedTimerUlil-Aznm.ttf")
            (a_img_exts a).

(** Lines 283-289: the font is fetched once. *)
Definition ensure_font (cfg : config F) : M unit :=
  if negb (path_exists (font_path cfg)) then
    do emit (Print ("download font file from online to " ++ font_path cfg)) then
    do call (mkdir_parents (parent (font_path cfg))) then
    do emit (Mkdir (parent (font_path cfg))) then
    do call (urlretrieve font_url (font_path cfg)) then
    emit (Download font_url (font_path cfg))
  else ret tt.

(** Lines 264-304, up to the call of the worker or of the scheduler. *)
Definition cli (a : args F) : M (cli_action F) :=
  do emit (Print ("args: " ++ repr a)) then
  let cfg := config_of_args a in
  do ensure_font cfg then
  if path_exists (a_src a) && is_file (a_src a) then
    if negb (is_file (a_dst a)) then
      do emit (Print "Error: Because 'args.src' is a file, 'args.dst' should be also a file") then
      ret (SysExit 1)
    else if negb (a_force a) && path_exists (a_dst a) then
      do emit (Print ("'" ++ a_dst a ++ "' exists and 'args.force' (overwrite) is set to False.")) then
      ret (SysExit 1)
    else ret (RunWorker (a_src a) (a_dst a) cfg)
  else
    ret (RunBatch (a_src a) (a_dst a) (a_recursive a) (a_force a) cfg
                  (a_jobs a)).

End Worker.
End Picdate.

(* ===================================================================== *)
(** * IEEE binary64 arithmetic, as CPython computes with floats          *)
(* ===================================================================== *)

Module Binary64.

Definition prec : Z := 53.
Definition emax : Z := 1024.

Definition float : Type := spec_float.

Definition add : float -> float -> float := SFadd prec emax.
Definition sub : float -> float -> float := SFsub prec emax.
Definition mul : float -> float -> float := SFmul prec emax.
Definition div : float -> float -> float := SFdiv prec emax.
Definition ltb : float -> float -> bool := SFltb.

(** An int as it is, not rounded yet. *)
Definition exact (n : Z) : float :=
  match n with
  | Z0 => S754_zero false
  | Zpos m => S754_finite false m 0
  | Zneg m => S754_finite true m 0
  end.

(** [float(n)]: the int rounded to the nearest double, ties to even (an
    infinity where CPython raises [OverflowError]). *)
Definition of_Z (n : Z) : float := binary_normalize prec emax n 0 false.

(** The quotient of two ints rounded once: [m / n] on ints, and the
    decimal literal with the digits [m] over the power of ten [n]. *)
Definition quotient (m n : Z) : float := div (exact m) (exact n).

Definition is_zero (x : float) : bool :=
  match x with
  | S754_zero _ => true
  | _ => false
  end.

Definition sign (x : float) : bool :=
  match x with
  | S754_zero s | S754_infinity s | S754_finite s _ _ => s
  | S754_nan => false
  end.

(** C's [fmod]: the remainder of the division truncated towards zero,
    which is exact and has the sign of [x]. *)
Definition fmod (x y : float) : float :=
  match x, y with
  | S754_nan, _ | _, S754_nan => S754_nan
  | S754_infinity _, _ | _, S754_zero _ => S754_nan
  | S754_zero _, _ | _, S754_infinity _ => x
  | S754_finite sx mx ex, S754_finite _ my ey =>
      let e := Z.min ex ey in
      let r := (Zpos mx * 2 ^ (ex - e)) mod (Zpos my * 2 ^ (ey - e)) in
      binary_normalize prec emax (cond_Zopp sx r) e sx
  end.

(** C's [floor]. *)
Definition floor (x : float) : float :=
  match x with
  | S754_finite s m e =>
      if 0 <=? e then x
      else binary_normalize prec emax (cond_Zopp s (Zpos m) / 2 ^ (- e)) 0 s
  | _ => x
  end.

(** [x // y], as [float_floor_div] and [_float_div_mod] of CPython's
    floatobject.c compute it: the quotient of [x] less its remainder,
    one less when the remainder and [y] differ in sign, snapped to the
    nearest whole number. *)
Definition floor_div (vx wx : float) : exn + float :=
  if is_zero wx then inl ZeroDivisionError
  else
    let rest := fmod vx wx in
    let quo := div (sub vx rest) wx in
    let quo :=
      if negb (is_zero rest)
         && negb (Bool.eqb (ltb wx (of_Z 0)) (ltb rest (of_Z 0)))
      then sub quo (of_Z 1) else quo in
    if negb (is_zero quo) then
      let floordiv := floor quo in
      inr (if ltb (quotient 1 2) (sub quo floordiv)
           then add floordiv (of_Z 1) else floordiv)
    else inr (S754_zero (sign (div vx wx))).

(** [x / y] on floats. *)
Definition true_div (x y : float) : exn + float :=
  if is_zero y then inl ZeroDivisionError else inr (div x y).

(** [m / n] on two ints. *)
Definition int_true_div (m n : Z) : exn + float :=
  if n =? 0 then inl ZeroDivisionError
  else match quotient m n with
       | S754_infinity _ => inl OverflowError
       | q => inr q
       end.

(** [int(x)]: towards zero. *)
Definition trunc (x : float) : exn + Z :=
  match x with
  | S754_nan => inl ValueError
  | S754_infinity _ => inl OverflowError
  | S754_zero _ => inr 0
  | S754_finite s m e =>
      inr (cond_Zopp s (if 0 <=? e then Zpos m * 2 ^ e
                        else Zpos m / 2 ^ (- e)))
  end.

End Binary64.

(** Floats as CPython has them. *)
#[export] Instance Float64 : FloatOps Binary64.float := {
  of_int := Binary64.of_Z;
  lit_0_01 := Binary64.quotient 1 100;
  fadd := Binary64.add;
  fsub := Binary64.sub;
  fmul := Binary64.mul;
  fdiv := Binary64.true_div;
  int_truediv := Binary64.int_true_div;
  ffloordiv := Binary64.floor_div;
  fgt x y := Binary64.ltb y x;
  flt := Binary64.ltb;
  to_int := Binary64.trunc
}.

(* ===================================================================== *)
(** * Exact arithmetic and a reference environment                       *)
(* ===================================================================== *)

(** Floats read as exact rationals: the arithmetic without its rounding. *)
#[export] Instance QFloat : FloatOps Q := {
  of_int := inject_Z;
  lit_0_01 := 1 # 100;
  fadd := Qplus;
  fsub := Qminus;
  fmul := Qmult;
  fdiv x y := if Qeq_bool y 0 then inl ZeroDivisionError else inr (x / y)%Q;
  int_truediv m n :=
    if n =? 0 then inl ZeroDivisionError
    else inr (inject_Z m / inject_Z n)%Q;
  ffloordiv x y :=
    if Qeq_bool y 0 then inl ZeroDivisionError
    else inr (inject_Z (Qfloor (x / y)));
  fgt x y := negb (Qle_bool x y);
  flt x y := negb (Qle_bool y x);
  to_int x := inr (if Qle_bool 0 x then Qfloor x else Qceiling x)
}.

(** A small world to run the programs in: files with their decoded image
    and modification time, directories, and the collaborators on their
    documented inputs. *)
Module Ref.

Record file := mk_file {
  content : exn + image;
  mtime : Q
}.

Record world := mk_world {
  files : list (string * file);
  dirs : list string
}.

Fixpoint lookup_file (p : string) (fs : list (string * file)) : option file :=
  match fs with
  | [] => None
  | (q, f) :: rest => if String.eqb p q then Some f else lookup_file p rest
  end.

(** Decimal digits to a number. *)
Fixpoint digits_value (acc : Z) (s : string) : option Z :=
  match s with
  | EmptyString => Some acc
  | String c rest =>
      match Layout.digit c with
      | Some d => digits_value (10 * acc + d) rest
      | None => None
      end
  end.

Definition number (s : string) : option Z :=
  match s with
  | EmptyString => None
  | _ => digits_value 0 s
  end.

(** [float(Fraction(s))] on the forms ["M"] and ["M/N"]. *)
Definition fraction (s : string) : exn + Q :=
  match PyStr.split "/" s with
  | [m] => match number m with
           | Some m => inr (inject_Z m)
           | None => inl ValueError
           end
  | [m; n] =>
      match number m, number n with
      | Some m, Some n =>
          if n =? 0 then inl ZeroDivisionError
          else inr (inject_Z m / inject_Z n)%Q
      | _, _ => inl ValueError
      end
  | _ => inl ValueError
  end.

(** Seconds since the epoch as a UTC date. *)
Definition utc (t : Z) : datetime :=
  let days := t / 86400 in
  let secs := t mod 86400 in
  let z := days + 719468 in
  let era := z / 146097 in
  let doe := z mod 146097 in
  let yoe := (doe - doe / 1460 + doe / 36524 - doe / 146096) / 365 in
  let doy := doe - (365 * yoe + yoe / 4 - yoe / 100) in
  let mp := (5 * doy + 2) / 153 in
  let d := doy - (153 * mp + 2) / 5 + 1 in
  let m := if mp <? 10 then mp + 3 else mp - 9 in
  let y := yoe + era * 400 + (if m <=? 2 then 1 else 0) in
  mk_datetime y m d (secs / 3600) (secs mod 3600 / 60) (secs mod 60) 0.

Definition digit_char (d : Z) : ascii := ascii_of_nat (48 + Z.to_nat d).

Fixpoint decimal_go (fuel : nat) (n : Z) (acc : string) : string :=
  match fuel with
  | O => acc
  | S fuel =>
      let acc := String (digit_char (n mod 10)) acc in
      if n / 10 =? 0 then acc else decimal_go fuel (n / 10) acc
  end.

Definition decimal (n : Z) : string := decimal_go 20 n EmptyString.

Definition two_digits (n : Z) : string :=
  String (digit_char (n / 10 mod 10)) (String (digit_char (n mod 10)) EmptyString).

(** [date.strftime(fmt)] for the directives of the default format and a
    few more. *)
Fixpoint render (d : datetime) (fmt : string) : string :=
  match fmt with
  | String "%" (String "-" (String c rest)) =>
      (if Ascii.eqb c "m" then decimal (month d)
       else if Ascii.eqb c "d" then decimal (day d)
       else String "%" (String "-" (String c EmptyString)))
      ++ render d rest
  | String "%" (String c rest) =>
      (if Ascii.eqb c "Y" then decimal (year d)
       else if Ascii.eqb c "y" then two_digits (year d mod 100)
       else if Ascii.eqb c "m" then two_digits (month d)
       else if Ascii.eqb c "d" then two_digits (day d)
       else if Ascii.eqb c "H" then two_digits (hour d)
       else if Ascii.eqb c "M" then two_digits (minute d)
       else if Ascii.eqb c "S" then two_digits (second d)
       else String "%" (String c EmptyString))
      ++ render d rest
  | String c rest => String c (render d rest)
  | EmptyString => EmptyString
  end.

(** The EXIF tag Orientation. *)
Definition Orientation : Z := 274.

Definition swaps_sides (o : Z) : bool := (5 <=? o) && (o <=? 8).

(** [ImageOps.exif_transpose]: orientations 5 to 8 turn the image by a
    quarter, so width and height change places; the tag is removed. *)
Definition transpose (img : image) : exn + image :=
  match getexif img with
  | inr (Some d) =>
      match d !! Orientation with
      | Some (ExifInt o) =>
          let '(w, h) := size img in
          inr (mk_image (if swaps_sides o then (h, w) else (w, h))
                        (inr (Some (delete Orientation d)))
                        (info_exif img))
      | _ => inr img
      end
  | _ => inr img
  end.

Fixpoint rev_string (acc s : string) : string :=
  match s with
  | EmptyString => acc
  | String c rest => rev_string (String c acc) rest
  end.

(** The part of a reversed path before its first ["/"], and the rest. *)
Fixpoint cut_slash (s : string) : string * string :=
  match s with
  | EmptyString => (EmptyString, EmptyString)
  | String c rest =>
      if Ascii.eqb c "/" then (EmptyString, rest)
      else let (a, b) := cut_slash rest in (String c a, b)
  end.

Definition name_of (p : string) : string :=
  rev_string EmptyString (fst (cut_slash (rev_string EmptyString p))).

Definition parent_of (p : string) : string :=
  match rev_string EmptyString (snd (cut_slash (rev_string EmptyString p))) with
  | EmptyString => "/"
  | d => d
  end.

(** The reversed suffix of a reversed name: up to its first ["."]. *)
Fixpoint cut_dot (s : string) : option (string * string) :=
  match s with
  | EmptyString => None
  | String c rest =>
      if Ascii.eqb c "." then Some (String c EmptyString, rest)
      else match cut_dot rest with
           | Some (a, b) => Some (String c a, b)
           | None => None
           end
  end.

(** [PurePath.suffix]: the last dotted part of the name, unless the dot
    is the first or the last character of the name. *)
Definition suffix_of (p : string) : string :=
  match cut_dot (rev_string EmptyString (name_of p)) with
  | Some (String c (String c' a), String b bs) =>
      rev_string EmptyString (String c (String c' a))
  | _ => EmptyString
  end.

Definition absolute_of (p : string) : string :=
  if String.prefix "/" p then p else "/" ++ p.

Definition expanduser_of (p : string) : string :=
  match p with
  | String "~" rest => "/home/user" ++ rest
  | _ => p
  end.

Definition has_slash (s : string) : bool :=
  existsb (fun c => Ascii.eqb c "/") (list_ascii_of_string s).

(** The files below [dir], in the order of the world. *)
Definition listing (w : world) (dir : string) (recursive : bool) : list string :=
  let root := absolute_of dir ++ "/" in
  List.filter (fun p =>
            String.prefix root p
            && (recursive
                || negb (has_slash (String.substring (String.length root)
                                                     (String.length p) p))))
         (map fst (files w)).

(** [datetime.fromisoformat] takes any single character between the date
    and the time; this puts a blank there. *)
Definition blank_separator (s : string) : string :=
  match s with
  | String y1 (String y2 (String y3 (String y4 (String p1
    (String m1 (String m2 (String p2
    (String d1 (String d2 (String _ rest)))))))))) =>
      String y1 (String y2 (String y3 (String y4 (String p1
      (String m1 (String m2 (String p2
      (String d1 (String d2 (String " " rest))))))))))
  | _ => s
  end.

(** [datetime.fromisoformat] on the stamps [YYYY-MM-DD?hh:mm:ss.fff]. *)
Definition iso (s : string) : exn + datetime :=
  match Layout.parse_iso_millis (blank_separator s) with
  | Some d => inr d
  | None => inl ValueError
  end.

Definition is_ascii (s : string) : bool :=
  forallb (fun c => Nat.ltb (nat_of_ascii c) 128) (list_ascii_of_string s).

(** Printing a caught exception and the local variables on a standard
    output in the ASCII encoding: the two paths are among the variables
    printed, and a character outside ASCII cannot be encoded. *)
Definition print_ascii (inpath outpath : string) (e : exn) : exn + unit :=
  if is_ascii inpath && is_ascii outpath then inr tt
  else inl UnicodeEncodeError.

#[local] Instance env (w : world) : Env Q := {
  fromisoformat := iso;
  fromtimestamp t := inr (utc (Qfloor t));
  strftime d fmt := inr (render d fmt);
  fraction_to_float := fraction;
  image_open p :=
    match lookup_file p (files w) with
    | Some f => content f
    | None => inl OSError
    end;
  exif_transpose := transpose;
  truetype p px := if px <=? 0 then inl ValueError else inr (mk_font p px);
  draw_text img _ := inr img;
  image_save _ _ _ _ := inr tt;
  st_mtime p :=
    match lookup_file p (files w) with
    | Some f => inr (mtime f)
    | None => inl OSError
    end;
  absolute := absolute_of;
  parent := parent_of;
  suffix := suffix_of;
  expanduser := expanduser_of;
  path_exists p :=
    match lookup_file p (files w) with
    | Some _ => true
    | None => PyStr.mem p (dirs w)
    end;
  is_file p :=
    match lookup_file p (files w) with
    | Some _ => true
    | None => false
    end;
  mkdir_parents _ := inr tt;
  glob := listing w;
  urlretrieve _ _ := inr tt;
  print_exception := print_ascii
}.

(** [float(Fraction(s))] in binary64. *)
Definition fraction64 (s : string) : exn + Binary64.float :=
  match PyStr.split "/" s with
  | [m] => match number m with
           | Some m => inr (Binary64.of_Z m)
           | None => inl ValueError
           end
  | [m; n] =>
      match number m, number n with
      | Some m, Some n => Binary64.int_true_div m n
      | _, _ => inl ValueError
      end
  | _ => inl ValueError
  end.

(** The same world for the programs computing in binary64. *)
Definition env64 (w : world) : Env Binary64.float :=
  let e := env w in
  Build_Env Binary64.float
    (fromisoformat (Env := e))
    (fun t => match Binary64.trunc (Binary64.floor t) with
              | inr n => inr (utc n)
              | inl err => inl err
              end)
    (strftime (Env := e))
    fraction64
    (image_open (Env := e)) (exif_transpose (Env := e)) (truetype (Env := e))
    (fun img _ => inr img)
    (image_save (Env := e))
    (fun p => match st_mtime (Env := e) p with
              | inr t => inr (Binary64.quotient (Qnum t) (Zpos (Qden t)))
              | inl err => inl err
              end)
    (absolute (Env := e)) (parent (Env := e)) (suffix (Env := e))
    (expanduser (Env := e)) (path_exists (Env := e)) (is_file (Env := e))
    (mkdir_parents (Env := e)) (glob (Env := e)) (urlretrieve (Env := e))
    (print_exception (Env := e)).

End Ref.

(* ===================================================================== *)
(** * Notions the properties are stated with                             *)
(* ===================================================================== *)

(** The value of tag 36867 cannot be parsed: the program's parse of it
    raises [e]. *)
Definition unparseable {F} {E : Env F} (v : exif_value) (e : exn) : Prop :=
  match stamp_of_value v with
  | inl e' => e' = e
  | inr stamp => fromisoformat stamp = inl e
  end.

(** Printing a caught exception succeeds in the worker called with the
    two paths. *)
Definition printing_succeeds {F} {E : Env F} (inpath outpath : string)
    : Prop :=
  forall e, print_exception inpath outpath e = inr tt.


(** The ratio the image's [width / height] is compared with: [1 / r] for
    a landscape image, [r] otherwise. *)
Definition target_ratio {F} {FO : FloatOps F} (r : F) (width height : Z)
    : exn + F :=
  if width >? height then fdiv (of_int 1) r else inr r.

(** [wh] lies within 0.01 of [target]. *)
Definition within_band {F} {FO : FloatOps F} (wh target : F) : bool :=
  negb (fgt wh (fadd target lit_0_01))
  && negb (flt wh (fsub target lit_0_01)).

(** [args] with another [--fine_tune_aspect_ratio]. *)
Definition with_ratio {F} (a : Picdate.args F) (r : string) : Picdate.args F :=
  Picdate.mk_args (Picdate.a_src a) (Picdate.a_dst a) (Picdate.a_force a)
    (Picdate.a_recursive a) (Picdate.a_jobs a) (Picdate.a_text_size a)
    (Picdate.a_text_color a) (Picdate.a_text_anchor a) (Picdate.a_pos_x a)
    (Picdate.a_pos_y a) r (Picdate.a_stroke_width a)
    (Picdate.a_stroke_color a) (Picdate.a_quality a) (Picdate.a_format a)
    (Picdate.a_img_exts a).



(** Is some task interrupted while the coordinator waits? *)
Definition interrupted {C} (timing : Scheduler.task C -> Scheduler.wait)
    (tasks : list (Scheduler.task C)) : bool :=
  existsb (fun t => match timing t with
                    | Scheduler.Interrupted => true
                    | _ => false
                    end) tasks.

(* ===================================================================== *)
(** * A sample world                                                     *)
(* ===================================================================== *)

Module Sample.

(** A photo stored as 4000 x 3000 that is to be shown turned by a quarter
    (orientation 6), taken on 2023-05-01 at 10:00. *)
Definition photo_tags : gmap Z exif_value :=
  <[DateTimeOriginal := ExifStr "2023:05:01 10:00:00"]>
    (<[Ref.Orientation := ExifInt 6]> ∅).

Definition photo : image :=
  mk_image (4000, 3000) (inr (Some photo_tags)) (Some "Exif").

(** A scan without metadata. *)
Definition scan : image := mk_image (30, 30) (inr None) None.

(** A photo whose capture time was written with dashes. *)
Definition dashed_tags : gmap Z exif_value :=
  <[DateTimeOriginal := ExifStr "2023-05-01 10:00:00"]> ∅.

Definition dashed : image :=
  mk_image (4000, 2000) (inr (Some dashed_tags)) (Some "Exif").

(** A photo with an orientation but no capture time. *)
Definition untimed_tags : gmap Z exif_value :=
  <[Ref.Orientation := ExifInt 6]> ∅.

Definition untimed : image :=
  mk_image (4000, 3000) (inr (Some untimed_tags)) (Some "Exif").

(** A wide panorama, 4000 x 2000. *)
Definition panorama_tags : gmap Z exif_value :=
  <[DateTimeOriginal := ExifStr "2023:05:01 10:00:00"]> ∅.

Definition panorama : image :=
  mk_image (4000, 2000) (inr (Some panorama_tags)) (Some "Exif").

Definition world : Ref.world :=
  Ref.mk_world
    [ ("/in/in.jpg", Ref.mk_file (inr photo) 0);
      ("/in/out.jpg", Ref.mk_file (inr scan) 1682935200);
      ("/in/notes.txt", Ref.mk_file (inl UnidentifiedImageError) 0);
      ("/in/broken.jpg", Ref.mk_file (inl UnidentifiedImageError) 0);
      ("/in/dashed.jpg", Ref.mk_file (inr dashed) 0);
      ("/in/wide.jpg", Ref.mk_file (inr panorama) 0);
      ("/in/untimed.jpg", Ref.mk_file (inr untimed) 1682935200);
      ("/home/user/.cache/picdate/CursedTimerUlil-Aznm.ttf",
       Ref.mk_file (inl UnidentifiedImageError) 0) ]
    [ "/in" ].

(** The default configuration of picdate, and one asking for 3/2. *)
Definition picdate_config (ratio : string) : Picdate.config Q :=
  Picdate.mk_config (424 # 100) [255; 149; 21] "rb" (94 # 100) (94 # 100)
    ratio 1 [242; 97; 0] 95 "`%y %-m %-d"
    "/home/user/.cache/picdate/CursedTimerUlil-Aznm.ttf" "jpg,jpeg,png,tiff".

Definition pad_config : Pad.config Q :=
  Pad.mk_config [255; 149; 21] "rb" (94 # 100) (94 # 100) 1 [242; 97; 0] 95
    "`%y %-m %-d" "/home/user/.cache/pad/CursedTimerUlil-Aznm.ttf"
    "jpg,jpeg,png,tiff".

Definition picdate_args (ratio : string) : Picdate.args Q :=
  Picdate.mk_args "/in" "/out" true false 4 (424 # 100) [255; 149; 21] "rb"
    (94 # 100) (94 # 100) ratio 1 [242; 97; 0] 95 "`%y %-m %-d"
    "jpg,jpeg,png,tiff".

Definition env : Env Q := Ref.env world.

(** The configuration of picdate in binary64, with the text size
    [size / 100] and the positions 0.94. *)
Definition picdate_config64 (size : Z) (ratio : string)
    : Picdate.config Binary64.float :=
  Picdate.mk_config (Binary64.quotient size 100) [255; 149; 21] "rb"
    (Binary64.quotient 94 100) (Binary64.quotient 94 100)
    ratio 1 [242; 97; 0] 95 "`%y %-m %-d"
    "/home/user/.cache/picdate/CursedTimerUlil-Aznm.ttf" "jpg,jpeg,png,tiff".

Definition env64 : Env Binary64.float := Ref.env64 world.

Definition pad_args (src dst : string) (force : bool) : Pad.args Q :=
  Pad.mk_args src dst force false [255; 149; 21] "rb" (94 # 100) (94 # 100)
    1 [242; 97; 0] 95 "`%y %-m %-d" "jpg,jpeg,png,tiff".

Definition picdate_file_args (src dst : string) (force : bool)
    : Picdate.args Q :=
  Picdate.mk_args src dst force false 4 (424 # 100) [255; 149; 21] "rb"
    (94 # 100) (94 # 100) "2/3" 1 [242; 97; 0] 95 "`%y %-m %-d"
    "jpg,jpeg,png,tiff".

(** A machine with an empty cache and no network. *)
Definition offline : Env Q :=
  let e := Ref.env (Ref.mk_world [] []) in
  Build_Env Q
    (fromisoformat (Env := e)) (fromtimestamp (Env := e))
    (strftime (Env := e)) (fraction_to_float (Env := e))
    (image_open (Env := e)) (exif_transpose (Env := e))
    (truetype (Env := e)) (draw_text (Env := e)) (image_save (Env := e))
    (st_mtime (Env := e)) (absolute (Env := e)) (parent (Env := e))
    (suffix (Env := e)) (expanduser (Env := e)) (path_exists (Env := e))
    (is_file (Env := e)) (mkdir_parents (Env := e)) (glob (Env := e))
    (fun _ _ => inl OSError) (print_exception (Env := e)).

(** A photo whose capture time has the letter T between the date and the
    time. *)
Definition lettered_tags : gmap Z exif_value :=
  <[DateTimeOriginal := ExifStr "2023:05:01T10:00:00"]> ∅.

Definition lettered : image :=
  mk_image (4000, 3000) (inr (Some lettered_tags)) (Some "Exif").

(** A second directory: that photo, and a file that is no image and has
    letters outside ASCII in its name. *)
Definition album : Ref.world :=
  Ref.mk_world
    [ ("/album/t.jpg", Ref.mk_file (inr lettered) 0);
      ("/album/été.jpg", Ref.mk_file (inl UnidentifiedImageError) 0);
      ("/home/user/.cache/picdate/CursedTimerUlil-Aznm.ttf",
       Ref.mk_file (inl UnidentifiedImageError) 0);
      ("/home/user/.cache/pad/CursedTimerUlil-Aznm.ttf",
       Ref.mk_file (inl UnidentifiedImageError) 0) ]
    [ "/album" ].

Definition album_env : Env Q := Ref.env album.

End Sample.

(* ===================================================================== *)
(** * [tuple_type], and notions for further properties                   *)
(* ===================================================================== *)

Section TupleType.
(** Python's [int] on a [str]. *)
Variable int : string -> exn + Z.

(** [tuple(map(int, pieces))]: the first piece that [int] refuses raises. *)
Fixpoint map_int (pieces : list string) : exn + list Z :=
  match pieces with
  | [] => inr []
  | p :: rest =>
      match int p with
      | inl e => inl e
      | inr n =>
          match map_int rest with
          | inl e => inl e
          | inr ns => inr (n :: ns)
          end
      end
  end.

(** pad.py lines 123-126, picdate.py lines 154-157. *)
Definition tuple_type (strings : string) : exn + list Z :=
  let strings := PyStr.replace ")" "" None (PyStr.replace "(" "" None strings) in
  map_int (PyStr.split "," strings).
End TupleType.

(** The numbers [1 .. n]. *)
Definition up_to (n : Z) : list Z :=
  map (fun k => Z.of_nat (S k)) (seq 0 (Z.to_nat n)).

(** [sep.join(pieces)]. *)
Fixpoint join (sep : string) (pieces : list string) : string :=
  match pieces with
  | [] => EmptyString
  | [p] => p
  | p :: rest => p ++ sep ++ join sep rest
  end.

(** Does the character [c] occur in [s]? *)
Fixpoint has_char (c : ascii) (s : string) : bool :=
  match s with
  | EmptyString => false
  | String c' rest => Ascii.eqb c' c || has_char c rest
  end.

(** [s] without the character [c]. *)
Fixpoint remove_char (c : ascii) (s : string) : string :=
  match s with
  | EmptyString => EmptyString
  | String c' rest =>
      if Ascii.eqb c' c then remove_char c rest
      else String c' (remove_char c rest)
  end.

(** [s.count(c)]. *)
Fixpoint count_char (c : ascii) (s : string) : nat :=
  match s with
  | EmptyString => O
  | String c' rest =>
      if Ascii.eqb c' c then S (count_char c rest) else count_char c rest
  end.

(** A piece of a tuple: no comma and no parenthesis in it. *)
Definition plain_piece (p : string) : bool :=
  negb (has_char "," p) && negb (has_char "(" p) && negb (has_char ")" p).

(** [old in s]. *)
Fixpoint occurs (old s : string) : bool :=
  match s with
  | EmptyString => String.prefix old EmptyString
  | String _ rest => String.prefix old s || occurs old rest
  end.

(** A candidate under the source root whose remainder does not repeat the
    name of the root. *)
Definition plain_under {F} {E : Env F} (in_dir file : string) : Prop :=
  exists rest, absolute file = absolute in_dir ++ rest
               /\ occurs (absolute in_dir) rest = false.


Definition is_save (ev : event) : bool :=
  match ev with
  | Save _ _ _ _ => true
  | _ => false
  end.

(** How many files a run has written. *)
Definition count_saves (tr : list event) : nat :=
  List.length (List.filter is_save tr).

(** No file written. *)
Definition writes_nothing {A} (m : M A) : Prop := count_saves (trace m) = O.

(** One file written if the computation returns, none if it raises. *)
Definition writes_on_return {A} (m : M A) : Prop :=
  count_saves (trace m)
  = match outcome m with inr _ => 1%nat | inl _ => O end.

(** The events a worker may cause for the output path [outpath]; the
    only [mkdir(parents=True, exist_ok=True)] is the one on the missing
    parent of the output path. *)
Definition worker_event {F} {E : Env F} (inpath outpath : string)
    (ev : event) : Prop :=
  match ev with
  | Print msg => msg = fallback_notice inpath
                 \/ msg = Picdate.fine_tune_notice inpath
  | PrintExc _ => True
  | Mkdir dir => dir = parent (absolute outpath) /\ path_exists dir = false
  | Save _ path _ _ => path = outpath
  | Download _ _ => False
  end.

(** Is the file allowed by the list of extensions? *)
Definition allowed {F} {E : Env F} (exts : list string) (file : string) : bool :=
  PyStr.mem (PyStr.lower (suffix file)) exts.

Definition is_timeout (r : Scheduler.get_result) : bool :=
  match r with
  | Scheduler.TimeoutError => true
  | _ => false
  end.

Definition is_interrupt (r : Scheduler.get_result) : bool :=
  match r with
  | Scheduler.KeyboardInterrupt => true
  | _ => false
  end.

(** The results awaited before the first interrupt. *)
Fixpoint before_interrupt (rs : list Scheduler.get_result)
    : list Scheduler.get_result :=
  match rs with
  | [] => []
  | r :: rest => if is_interrupt r then [] else r :: before_interrupt rest
  end.

(** Python's [int] on plain decimal forms: optional blanks around an
    optional sign and digits. *)
Module RefInt.

Definition is_blank (c : ascii) : bool :=
  let n := nat_of_ascii c in
  (Nat.leb 9 n && Nat.leb n 13) || (Nat.leb 28 n && Nat.leb n 32).

Fixpoint lstrip (s : string) : string :=
  match s with
  | String c rest => if is_blank c then lstrip rest else s
  | EmptyString => EmptyString
  end.

Definition strip (s : string) : string :=
  Ref.rev_string EmptyString
    (lstrip (Ref.rev_string EmptyString (lstrip s))).

Definition int (s : string) : exn + Z :=
  match strip s with
  | String "-" ds => match Ref.number ds with
                     | Some n => inr (- n)
                     | None => inl ValueError
                     end
  | String "+" ds => match Ref.number ds with
                     | Some n => inr n
                     | None => inl ValueError
                     end
  | ds => match Ref.number ds with
          | Some n => inr n
          | None => inl ValueError
          end
  end.

End RefInt.

(* ===================================================================== *)
(** * How the arguments are shown                                        *)
(* ===================================================================== *)

(** [repr] of the values of an [argparse.Namespace], and the namespace as
    [print(f"args: {args}")] shows it: the options in the order in which
    [get_args] declares them. *)
Module RefRepr.

Definition double_quote : ascii := ascii_of_nat 34.
Definition backslash : ascii := ascii_of_nat 92.

Definition escape (quote : ascii) (c : ascii) : string :=
  if Ascii.eqb c quote || Ascii.eqb c backslash
  then String backslash (String c EmptyString)
  else if Ascii.eqb c (ascii_of_nat 10) then String backslash "n"
  else if Ascii.eqb c (ascii_of_nat 13) then String backslash "r"
  else if Ascii.eqb c (ascii_of_nat 9) then String backslash "t"
  else String c EmptyString.

Fixpoint escaped (quote : ascii) (s : string) : string :=
  match s with
  | EmptyString => EmptyString
  | String c rest => escape quote c ++ escaped quote rest
  end.

(** [repr] of a [str] of printable characters: in single quotes, unless
    it holds a single quote and no double quote. *)
Definition of_str (s : string) : string :=
  let quote :=
    if has_char "'" s && negb (has_char double_quote s) then double_quote
    else "'"%char in
  String quote (escaped quote s ++ String quote EmptyString).

Definition of_bool (b : bool) : string := if b then "True" else "False".

Definition of_int (n : Z) : string :=
  if n <? 0 then "-" ++ Ref.decimal (- n) else Ref.decimal n.

(** [repr] of a tuple of ints. *)
Definition of_tuple (ns : list Z) : string :=
  match ns with
  | [n] => "(" ++ of_int n ++ ",)"
  | _ => "(" ++ join ", " (map of_int ns) ++ ")"
  end.

(** The least number of decimal places, up to [fuel], with which [n / d]
    is written exactly, and the digits then. *)
Fixpoint places (fuel : nat) (n d : Z) (k : nat) : option (Z * nat) :=
  if n mod d =? 0 then Some (n / d, k)
  else match fuel with
       | O => None
       | S fuel => places fuel (10 * n) d (S k)
       end.

Fixpoint zeros (n : nat) : string :=
  match n with
  | O => EmptyString
  | S n => String "0" (zeros n)
  end.

(** A rational as a decimal where it has one, as a quotient otherwise. *)
Definition of_float (q : Q) : string :=
  let n := Z.abs (Qnum q) in
  let d := Zpos (Qden q) in
  (if Qnum q <? 0 then "-" else "")
  ++ match places 20 n d 0 with
     | Some (m, O) => Ref.decimal m ++ ".0"
     | Some (m, k) =>
         let unit := 10 ^ Z.of_nat k in
         let frac := Ref.decimal (m mod unit) in
         Ref.decimal (m / unit) ++ "."
         ++ zeros (k - String.length frac) ++ frac
     | None => Ref.decimal n ++ "/" ++ Ref.decimal d
     end.

Definition namespace (fields : list (string * string)) : string :=
  "Namespace(" ++ join ", " (map (fun f => fst f ++ "=" ++ snd f) fields) ++ ")".

#[global] Instance pad_args : Repr (Pad.args Q) := fun a =>
  namespace
    [ ("src", of_str (Pad.a_src a));
      ("dst", of_str (Pad.a_dst a));
      ("force", of_bool (Pad.a_force a));
      ("recursive", of_bool (Pad.a_recursive a));
      ("text_color", of_tuple (Pad.a_text_color a));
      ("text_anchor", of_str (Pad.a_text_anchor a));
      ("pos_w", of_float (Pad.a_pos_w a));
      ("pos_h", of_float (Pad.a_pos_h a));
      ("stroke_width", of_int (Pad.a_stroke_width a));
      ("stroke_color", of_tuple (Pad.a_stroke_color a));
      ("quality", of_int (Pad.a_quality a));
      ("format", of_str (Pad.a_format a));
      ("img_exts", of_str (Pad.a_img_exts a)) ].

#[global] Instance picdate_args : Repr (Picdate.args Q) := fun a =>
  namespace
    [ ("src", of_str (Picdate.a_src a));
      ("dst", of_str (Picdate.a_dst a));
      ("force", of_bool (Picdate.a_force a));
      ("recursive", of_bool (Picdate.a_recursive a));
      ("jobs", of_int (Picdate.a_jobs a));
      ("text_size", of_float (Picdate.a_text_size a));
      ("text_color", of_tuple (Picdate.a_text_color a));
      ("text_anchor", of_str (Picdate.a_text_anchor a));
      ("pos_x", of_float (Picdate.a_pos_x a));
      ("pos_y", of_float (Picdate.a_pos_y a));
      ("fine_tune_aspect_ratio", of_str (Picdate.a_fine_tune_aspect_ratio a));
      ("stroke_width", of_int (Picdate.a_stroke_width a));
      ("stroke_color", of_tuple (Picdate.a_stroke_color a));
      ("quality", of_int (Picdate.a_quality a));
      ("format", of_str (Picdate.a_format a));
      ("img_exts", of_str (Picdate.a_img_exts a)) ].

End RefRepr.

(* ===================================================================== *)
(** * Evaluating the string and date operations                          *)
(* ===================================================================== *)

Example replace_two_colons :
  PyStr.replace ":" "-" (Some 2%nat) "2023:05:01 10:00:00"
  = "2023-05-01 10:00:00".
Proof. reflexivity. Qed.

Example replace_all_occurrences :
  PyStr.replace "ab" "x" None "abcabab" = "xcxx".
Proof. reflexivity. Qed.

Example replace_empty_pattern :
  PyStr.replace "" "-" None "abc" = "-a-b-c-".
Proof. reflexivity. Qed.

Example split_exts :
  PyStr.split "," "jpg,jpeg,png,tiff" = ["jpg"; "jpeg"; "png"; "tiff"].
Proof. reflexivity. Qed.

Example parse_exif_ok :
  Layout.parse_exif "2023:05:01 10:00:00"
  = Some (mk_datetime 2023 5 1 10 0 0 0).
Proof. reflexivity. Qed.

Example parse_exif_feb30 : Layout.parse_exif "2023:02:30 10:00:00" = None.
Proof. reflexivity. Qed.

Example parse_exif_dashes : Layout.parse_exif "2023-05-01 10:00:00" = None.
Proof. reflexivity. Qed.

Example parse_iso_ok :
  Layout.parse_iso_millis "2023-05-01 10:00:00.000"
  = Some (mk_datetime 2023 5 1 10 0 0 0).
Proof. reflexivity. Qed.

Example suffix_of_names :
  map Ref.suffix_of ["/in/a.JPG"; "/in/b.tar.gz"; "/in/.hidden"; "/in/x."; "/a.b/x"]
  = [".JPG"; ".gz"; ""; ""; ""].
Proof. reflexivity. Qed.

Example allowed_exts_default :
  Scheduler.allowed_exts "jpg,JPEG,png,tiff" = [".jpg"; ".jpeg"; ".png"; ".tiff"].
Proof. reflexivity. Qed.

(** A directory run over the sample world without [--force]: the text
    file is passed over, and so is nothing else, since [/out] is empty. *)
Example sample_inputs :
  map Scheduler.in_path
    (fst (Picdate.add_date_in_dir_mt (E := Sample.env) "/in" "/out" false false
            (Sample.picdate_config "2/3") (fun _ => Scheduler.Finished)))
  = ["/in/in.jpg"; "/in/out.jpg"; "/in/broken.jpg"; "/in/dashed.jpg";
     "/in/wide.jpg"; "/in/untimed.jpg"].
Proof. vm_compute. reflexivity. Qed.

(** Mirroring a directory onto itself submits nothing. *)
Example same_directory_skipped :
  fst (Picdate.add_date_in_dir_mt (E := Sample.env) "/in" "/in" false true
         (Sample.picdate_config "2/3") (fun _ => Scheduler.Finished))
  = [].
Proof. vm_compute. reflexivity. Qed.

(** picdate on the sample photo: the date comes from EXIF, the image is
    turned to 3000 x 4000, which is the ratio 3/4 against the target 2/3:
    a width offset, then the save with the metadata embedded. *)
Example photo_stamped :
  exists img,
    Picdate.add_date_to_img (E := Sample.env) "/in/in.jpg" "/out/in.jpg"
      (Sample.picdate_config "2/3")
    = ([Print (Picdate.fine_tune_notice "/in/in.jpg"); Mkdir "/out";
        Save img "/out/in.jpg" 95 (Some "Exif")], inr tt)
    /\ size img = (3000, 4000).
Proof. eexists. split; vm_compute; reflexivity. Qed.

Example photo_text :
  outcome (bind (Picdate.prepare (E := Sample.env) "/in/in.jpg"
                   (Sample.picdate_config "2/3"))
                (fun p => ret (Picdate.p_text p)))
  = inr "`23 5 1".
Proof. vm_compute. reflexivity. Qed.

(** The scan has no metadata: notice, modification time, no offsets; 30
    pixels give the font size 0, which the font loader refuses. *)
Example scan_fails_on_font :
  Picdate.add_date_to_img (E := Sample.env) "/in/out.jpg" "/out/scan.jpg"
    (Sample.picdate_config "none")
  = ([Print (fallback_notice "/in/out.jpg"); PrintExc ValueError], inr tt).
Proof. vm_compute. reflexivity. Qed.

(** The panorama against 2/3: [4000 / 2000 > 3/2 + 0.01], so the width
    loses [(4000 - 3/2 * 2000) / 2 = 500] and the text is drawn at
    [(4000 - 500) * 0.94 = 3290]. *)
Example panorama_offsets :
  match Picdate.fine_tune (2 # 3) 4000 2000 with
  | inr (offset_w, offset_h) =>
      (offset_w == 500 /\ offset_h == 0
       /\ fst (Picdate.draw_point (Sample.picdate_config "2/3") 4000 2000
                 offset_w offset_h) == 3290)%Q
  | inl _ => False
  end.
Proof. vm_compute. repeat split. Qed.

(** Where the rounding of binary64 decides the font size: at the text
    size 4.56, 100 pixels give the product 455.99999999999994 and so the
    size 2, where exact arithmetic gives 456 and the size 3. *)
Example font_size_rounding :
  Picdate.font_size (Sample.picdate_config64 456 "2/3") 100 50 = inr 2
  /\ Picdate.font_size
       (Picdate.mk_config (456 # 100)%Q [] "rb" 0%Q 0%Q "2/3" 1 [] 95 "" "" "")
       100 50
     = inr 3
  /\ Picdate.font_size (Sample.picdate_config64 424 "2/3") 4000 3000
     = inr 111.
Proof. repeat split; vm_compute; reflexivity. Qed.

(** At the default text size 4.24 the rounding does not show: for every
    longer side up to 12000 pixels the size computed in binary64 is
    [floor(4.24 * side / 152)], and it is at least 1 from 36 pixels on. *)
Example default_text_size_sizes :
  forallb (fun side =>
             match Picdate.font_size (Sample.picdate_config64 424 "2/3")
                     side 1 with
             | inr px => (px =? 424 * side / 15200)
                         && Bool.eqb (1 <=? px) (36 <=? side)
             | inl _ => false
             end)
          (up_to 12000)
  = true.
Proof. vm_compute. reflexivity. Qed.

(** Where the rounding decides the offsets: for 803 x 300 against the
    ratio 3/8 the quotient [803 / 300] is, in binary64, just above
    [1 / 0.375 + 0.01], so the width gets the offset 1.5 and the line is
    printed; in exact arithmetic the two are equal and there is no
    offset. *)
Example band_edge_rounding :
  Picdate.crop_offsets (E := Sample.env64) "/in/x.jpg"
    (Sample.picdate_config64 424 "3/8") 803 300
  = ([Print (Picdate.fine_tune_notice "/in/x.jpg")],
     inr (Binary64.quotient 3 2, Binary64.of_Z 0))
  /\ Picdate.crop_offsets (E := Sample.env) "/in/x.jpg"
       (Sample.picdate_config "3/8") 803 300
     = ([], inr (0, 0)%Q).
Proof. split; vm_compute; reflexivity. Qed.

(** The worker computing in binary64 on the sample photo and on the
    scan. *)
Example worker_in_binary64 :
  (exists img,
     Picdate.add_date_to_img (E := Sample.env64) "/in/in.jpg" "/out/in.jpg"
       (Sample.picdate_config64 424 "2/3")
     = ([Print (Picdate.fine_tune_notice "/in/in.jpg"); Mkdir "/out";
         Save img "/out/in.jpg" 95 (Some "Exif")], inr tt)
     /\ size img = (3000, 4000))
  /\ Picdate.add_date_to_img (E := Sample.env64) "/in/out.jpg" "/out/scan.jpg"
       (Sample.picdate_config64 424 "none")
     = ([Print (fallback_notice "/in/out.jpg"); PrintExc ValueError], inr tt).
Proof.
  split; [eexists; split|]; vm_compute; reflexivity.
Qed.

(** A coordinator that meets a timeout and then an interrupt. *)
Example await_timeout_then_interrupt :
  Scheduler.await [Scheduler.Got (inr tt); Scheduler.TimeoutError;
                   Scheduler.KeyboardInterrupt; Scheduler.Got (inr tt)]
  = ([Print "TLE"], inr (Some 1)).
Proof. reflexivity. Qed.

(** Single-file mode asks for a destination that is already a file, and
    for [--force] then. *)
Example cli_single_file :
  outcome (Picdate.cli (E := Sample.env)
             (with_ratio (Picdate.mk_args "/in/in.jpg" "/in/out.jpg" false
                            false 4 (424 # 100) [] "rb" (94 # 100) (94 # 100)
                            "" 1 [] 95 "%Y" "jpg") "2/3"))
  = inr (Picdate.SysExit 1).
Proof. vm_compute. reflexivity. Qed.

(** The first line of [cli] shows the arguments, the ratio among them. *)
Example cli_shows_arguments :
  trace (Picdate.cli (E := Sample.env) (Sample.picdate_args "3/2"))
  = [Print ("args: Namespace(src='/in', dst='/out', force=True, "
            ++ "recursive=False, jobs=4, text_size=4.24, "
            ++ "text_color=(255, 149, 21), text_anchor='rb', pos_x=0.94, "
            ++ "pos_y=0.94, fine_tune_aspect_ratio='3/2', stroke_width=1, "
            ++ "stroke_color=(242, 97, 0), quality=95, "
            ++ "format='`%y %-m %-d', img_exts='jpg,jpeg,png,tiff')")].
Proof. vm_compute. reflexivity. Qed.

(** [datetime.fromisoformat] takes any character between the date and
    the time, and refuses dashes in the time. *)
Example iso_separators :
  map Ref.iso ["2023-05-01 10:00:00.000"; "2023-05-01T10:00:00.000";
               "2023-05-01 10-00-00.000"]
  = [inr (mk_datetime 2023 5 1 10 0 0 0); inr (mk_datetime 2023 5 1 10 0 0 0);
     inl ValueError].
Proof. reflexivity. Qed.

Example tuple_type_examples :
  map (tuple_type RefInt.int) ["(255, 149, 21)"; "255,149,21"; "(7,)"; "";
                               "2(5)5"; "1,-2, +3 "]
  = [inr [255; 149; 21]; inr [255; 149; 21]; inl ValueError; inl ValueError;
     inr [255]; inr [1; -2; 3]].
Proof. reflexivity. Qed.

(* ===================================================================== *)
(** * The EXIF stamp and its ISO form                                    *)
(* ===================================================================== *)

Module LayoutFacts.
Import Layout.

Lemma prefix_single (a b : ascii) (r : string) :
  String.prefix (String a EmptyString) (String b r) = Ascii.eqb a b.
Proof.
  simpl. destruct (ascii_dec a b) as [->|Hne].
  - rewrite Ascii.eqb_refl. destruct r; reflexivity.
  - symmetry. apply Ascii.eqb_neq. exact Hne.
Qed.











End LayoutFacts.

(* ===================================================================== *)
(** * Running the worker monad                                           *)
(* ===================================================================== *)

Lemma bind_returned {A B} (a : A) (k : A -> M B) :
  bind (call (inr a)) k = k a.
Proof. unfold bind, call. now destruct (k a). Qed.

Lemma bind_raised {A B} (e : exn) (k : A -> M B) :
  bind (call (inl e)) k = ([], inl e).
Proof. reflexivity. Qed.

Lemma bind_ret {A B} (a : A) (k : A -> M B) : bind (ret a) k = k a.
Proof. unfold bind, ret. now destruct (k a). Qed.

Lemma bind_emit {B} (ev : event) (k : unit -> M B) :
  bind (emit ev) k = (ev :: trace (k tt), outcome (k tt)).
Proof. unfold bind, emit, trace, outcome. now destruct (k tt). Qed.

Create Rewrite HintDb run.
#[local] Hint Rewrite @bind_returned @bind_raised @bind_ret @bind_emit : run.

Ltac run := autorewrite with run; cbn [trace outcome fst snd].

(* ===================================================================== *)
(** * Date resolution                                                   *)
(* ===================================================================== *)

Section DateResolution.
Context {F : Type} {FO : FloatOps F} {E : Env F}.


Lemma has_original m v :
  m !! DateTimeOriginal = Some v ->
  lacks_original (Some m) = false /\ exif_original (Some m) = inr v.
Proof. intros Hm. unfold lacks_original, exif_original. now rewrite Hm. Qed.

End DateResolution.

(* ===================================================================== *)
(** * The worker keeps its failures to itself                           *)
(* ===================================================================== *)

Section WorkerIsolation.
Context {F : Type} {FO : FloatOps F} {E : Env F}.

Lemma outcome_bind_emit {B} ev (k : unit -> M B) :
  outcome (bind (emit ev) k) = outcome (k tt).
Proof. now rewrite bind_emit. Qed.

Lemma await_outcome {C} (worker : string -> string -> C -> M unit)
    (timing : Scheduler.task C -> Scheduler.wait) (tasks : list (Scheduler.task C)) :
  Forall (fun t => outcome (worker (Scheduler.in_path t) (Scheduler.out_path t)
                              (Scheduler.task_config t)) = inr tt) tasks ->
  outcome (Scheduler.await (map (Scheduler.get worker timing) tasks))
  = inr (if interrupted timing tasks then Some 1 else None).
Proof.
  intros Hw. induction tasks as [|t tasks IH]; [reflexivity|].
  inversion Hw as [|? ? Ht Hrest]; subst.
  cbn [map Scheduler.await interrupted existsb]. unfold Scheduler.get at 1.
  destruct (timing t); cbn [orb].
  - rewrite Ht. exact (IH Hrest).
  - rewrite outcome_bind_emit. exact (IH Hrest).
  - reflexivity.
Qed.

Lemma reported (i o : string) (e : exn) :
  print_exception i o e = inr tt -> report i o e = ([PrintExc e], inr tt).
Proof. intros Hp. unfold report. now rewrite Hp. Qed.

Lemma caught (m : M unit) (i o : string) (tr : list event) (e : exn) :
  m = (tr, inl e) ->
  print_exception i o e = inr tt ->
  try_except m (report i o) = ((tr ++ [PrintExc e])%list, inr tt).
Proof. intros -> Hp. cbn [try_except]. now rewrite (reported _ _ _ Hp). Qed.

Lemma caught_returns (m : M unit) (i o : string) :
  printing_succeeds i o -> outcome (try_except m (report i o)) = inr tt.
Proof.
  intros Hp. destruct m as [tr [e|[]]]; [|reflexivity].
  now rewrite (caught _ i o tr e eq_refl (Hp e)).
Qed.

Lemma pad_worker_returns i o (c : Pad.config F) :
  printing_succeeds i o -> outcome (Pad.add_date_to_img i o c) = inr tt.
Proof. apply caught_returns. Qed.

Lemma picdate_worker_returns i o (c : Picdate.config F) :
  printing_succeeds i o -> outcome (Picdate.add_date_to_img i o c) = inr tt.
Proof. apply caught_returns. Qed.

(** C2, as the code has it.  Provided that the printing of a caught
  exception succeeds, the single-image worker lets no exception out:
  whatever a step of its body raises is caught and printed, and the
  worker returns.  Hence, when that printing succeeds for the submitted
  tasks, waiting for them never raises: the coordinator reaches the end
  of its loop unless it is interrupted. *)
Theorem worker_never_raises (inpath outpath : string)
    (cp : Pad.config F) (cq : Picdate.config F) :
  printing_succeeds inpath outpath ->
  outcome (Pad.add_date_to_img inpath outpath cp) = inr tt
  /\ outcome (Picdate.add_date_to_img inpath outpath cq) = inr tt
  /\ (forall tr e,
        Pad.add_date_to_img_body inpath outpath cp = (tr, inl e) ->
        Pad.add_date_to_img inpath outpath cp
        = ((tr ++ [PrintExc e])%list, inr tt))
  /\ (forall tr e,
        Picdate.add_date_to_img_body inpath outpath cq = (tr, inl e) ->
        Picdate.add_date_to_img inpath outpath cq
        = ((tr ++ [PrintExc e])%list, inr tt))
  /\ (forall in_dir out_dir recursive overwrite timing,
        let run := Pad.add_date_in_dir_mt in_dir out_dir recursive
                     overwrite cp timing in
        Forall (fun t => printing_succeeds (Scheduler.in_path t)
                                           (Scheduler.out_path t)) (fst run) ->
        outcome (snd run)
        = inr (if interrupted timing (fst run) then Some 1 else None))
  /\ (forall in_dir out_dir recursive overwrite timing,
        let run := Picdate.add_date_in_dir_mt in_dir out_dir recursive
                     overwrite cq timing in
        Forall (fun t => printing_succeeds (Scheduler.in_path t)
                                           (Scheduler.out_path t)) (fst run) ->
        outcome (snd run)
        = inr (if interrupted timing (fst run) then Some 1 else None)).
Proof.
  intros Hp.
  split; [now apply pad_worker_returns|].
  split; [now apply picdate_worker_returns|].
  split; [intros tr e Hb; now apply caught|].
  split; [intros tr e Hb; now apply caught|].
  split; intros in_dir out_dir recursive overwrite timing;
    unfold Pad.add_date_in_dir_mt, Picdate.add_date_in_dir_mt,
           Scheduler.add_date_in_dir_mt;
    destruct (Scheduler.submit_tasks _ _ _ _ _ _) as [tr tasks];
    cbn [fst snd outcome]; intros Hall;
    apply await_outcome;
    (eapply Forall_impl; [exact Hall|]); intros t Ht;
    [now apply pad_worker_returns | now apply picdate_worker_returns].
Qed.

(** C3, as the code has it.  When tag 36867 is present but the program's
  own parse of its value raises, the task fails at that parse: nothing
  has been printed or written by then, so the worker writes no output
  file and does not fall back to the modification time; it prints the
  exception, and nothing else, when that printing succeeds.  Both
  programs. *)
Theorem unparseable_stamp_fails (inpath outpath : string)
    (cp : Pad.config F) (cq : Picdate.config F)
    (img : image) (m : gmap Z exif_value) (v : exif_value) (e : exn) :
  image_open inpath = inr img ->
  getexif img = inr (Some m) ->
  m !! DateTimeOriginal = Some v ->
  unparseable v e ->
  Pad.add_date_to_img_body inpath outpath cp = ([], inl e)
  /\ Picdate.add_date_to_img_body inpath outpath cq = ([], inl e)
  /\ writes_nothing (Pad.add_date_to_img inpath outpath cp)
  /\ writes_nothing (Picdate.add_date_to_img inpath outpath cq)
  /\ (print_exception inpath outpath e = inr tt ->
      Pad.add_date_to_img inpath outpath cp = ([PrintExc e], inr tt)
      /\ Picdate.add_date_to_img inpath outpath cq = ([PrintExc e], inr tt)).
Proof.
  intros Hopen Hexif Hm Hbad.
  destruct (has_original _ _ Hm) as [Hl Ho].
  unfold unparseable in Hbad.
  assert (Hpad : Pad.add_date_to_img_body inpath outpath cp = ([], inl e)).
  { unfold Pad.add_date_to_img_body, Pad.prepare.
    rewrite Hopen. run. destruct (size img) as [w h].
    rewrite Hexif. run. unfold Pad.resolve_date. rewrite Hl, Ho. run.
    destruct (stamp_of_value v) as [e'|stamp]; [subst e'; now run|].
    run. rewrite Hbad. now run. }
  assert (Hpic : Picdate.add_date_to_img_body inpath outpath cq = ([], inl e)).
  { unfold Picdate.add_date_to_img_body, Picdate.prepare.
    rewrite Hopen. run.
    rewrite Hexif. run. unfold Picdate.resolve_date. rewrite Hl, Ho. run.
    destruct (stamp_of_value v) as [e'|stamp]; [subst e'; now run|].
    run. rewrite Hbad. now run. }
  split; [exact Hpad|]. split; [exact Hpic|].
  unfold Pad.add_date_to_img, Picdate.add_date_to_img, writes_nothing.
  rewrite Hpad, Hpic. cbn [try_except]. unfold report.
  split; [|split].
  - destruct (print_exception inpath outpath e) as [e'|[]]; reflexivity.
  - destruct (print_exception inpath outpath e) as [e'|[]]; reflexivity.
  - intros ->. split; reflexivity.
Qed.

End WorkerIsolation.

(* ===================================================================== *)
(** * Offsets, for any arithmetic                                       *)
(* ===================================================================== *)

Section Offsets.
Context {F : Type} {FO : FloatOps F} {E : Env F}.

Ltac split_cases :=
  repeat match goal with
  | |- context [match ?x with _ => _ end] => destruct x eqn:?
  end.

Lemma fine_tune_one_zero r w h ow oh :
  Picdate.fine_tune r w h = inr (ow, oh) ->
  ow = of_int 0 \/ oh = of_int 0.
Proof.
  unfold Picdate.fine_tune. split_cases; intros [= <- <-]; auto.
Qed.

Lemma fine_tune_in_band r w h wh target ow oh :
  Picdate.fine_tune r w h = inr (ow, oh) ->
  int_truediv w h = inr wh ->
  target_ratio r w h = inr target ->
  within_band wh target = true ->
  ow = of_int 0 /\ oh = of_int 0.
Proof.
  unfold Picdate.fine_tune, target_ratio, within_band.
  intros Hft Hwh Ht Hband. rewrite Hwh in Hft.
  apply andb_true_iff in Hband as [Hgt Hlt].
  apply negb_true_iff in Hgt, Hlt.
  destruct (w >? h).
  - rewrite Ht, Hgt, Hlt in Hft. now injection Hft as <- <-.
  - injection Ht as ->. rewrite Hgt, Hlt in Hft. now injection Hft as <- <-.
Qed.

Lemma crop_offsets_inv inpath (cfg : Picdate.config F) w h ow oh :
  outcome (Picdate.crop_offsets inpath cfg w h) = inr (ow, oh) ->
  (Picdate.fine_tune_aspect_ratio cfg = "none"
   /\ ow = of_int 0 /\ oh = of_int 0)
  \/ (Picdate.fine_tune_aspect_ratio cfg <> "none"
      /\ exists r, fraction_to_float (Picdate.fine_tune_aspect_ratio cfg) = inr r
                   /\ Picdate.fine_tune r w h = inr (ow, oh)).
Proof.
  unfold Picdate.crop_offsets.
  destruct (String.eqb_spec (Picdate.fine_tune_aspect_ratio cfg) "none")
    as [Hn|Hn]; cbn [negb].
  - intros [= <- <-]. now left.
  - intros Hrun. right. split; [exact Hn|].
    destruct (fraction_to_float _) as [e|r]; [discriminate Hrun|].
    exists r. split; [reflexivity|].
    rewrite bind_returned in Hrun.
    destruct (Picdate.fine_tune r w h) as [e|[ow' oh']]; [discriminate Hrun|].
    rewrite bind_returned in Hrun.
    destruct (fgt oh' (of_int 0) || fgt ow' (of_int 0));
      run; rewrite ?bind_ret in Hrun; cbn in Hrun; now injection Hrun as <- <-.
Qed.

(** C5. Whatever the width, the height and the configuration, the offsets
  that the geometry computes are never both non-zero; both are zero when
  the ratio of the image lies within 0.01 of the target, and when no
  fine-tune ratio is configured.  This holds for any arithmetic. *)
Theorem offsets_never_both (inpath : string) (cfg : Picdate.config F)
    (width height : Z) (offset_w offset_h : F) :
  outcome (Picdate.crop_offsets inpath cfg width height)
  = inr (offset_w, offset_h) ->
  (offset_w = of_int 0 \/ offset_h = of_int 0)
  /\ (Picdate.fine_tune_aspect_ratio cfg = "none" ->
      offset_w = of_int 0 /\ offset_h = of_int 0)
  /\ (forall r wh target,
        fraction_to_float (Picdate.fine_tune_aspect_ratio cfg) = inr r ->
        int_truediv width height = inr wh ->
        target_ratio r width height = inr target ->
        within_band wh target = true ->
        offset_w = of_int 0 /\ offset_h = of_int 0).
Proof.
  intros Hrun.
  apply crop_offsets_inv in Hrun
    as [(Hn & -> & ->)|(Hn & r & Hr & Hft)].
  - auto.
  - split; [eapply fine_tune_one_zero; eassumption|].
    split; [intros Hn'; contradiction|].
    intros r' wh target Hr' Hwh Ht Hband.
    rewrite Hr in Hr'. injection Hr' as <-.
    eapply fine_tune_in_band; eassumption.
Qed.

End Offsets.

(* ===================================================================== *)
(** * Geometry in exact arithmetic                                      *)
(* ===================================================================== *)

Section ExactGeometry.
Context {E : Env Q}.
Local Open Scope Q_scope.

Lemma fgt_Q (x y : Q) : fgt x y = true <-> y < x.
Proof.
  cbn. rewrite negb_true_iff. split.
  - intros H. apply Qnot_le_lt. intros Hle. apply Qle_bool_iff in Hle. congruence.
  - intros H. destruct (Qle_bool x y) eqn:Hb; [|reflexivity].
    apply Qle_bool_iff in Hb. lra.
Qed.

Lemma flt_Q (x y : Q) : flt x y = true <-> x < y.
Proof. apply (fgt_Q y x). Qed.

Lemma fdiv_Q (x y : Q) : ~ y == 0 -> fdiv x y = inr (x / y).
Proof.
  intros Hy. cbn. destruct (Qeq_bool y 0) eqn:Hb; [|reflexivity].
  apply Qeq_bool_iff in Hb. contradiction.
Qed.

Lemma int_truediv_Q (m n : Z) :
  (n <> 0)%Z -> int_truediv m n = inr (inject_Z m / inject_Z n).
Proof.
  intros Hn. cbn. destruct (Z.eqb_spec n 0); [contradiction|reflexivity].
Qed.

Lemma half_excess_Q (x y : Q) :
  Picdate.half_excess x y = inr ((x - y) / 2).
Proof. reflexivity. Qed.

Lemma fine_tune_bounds (r : Q) (width height : Z) :
  (1 <= width)%Z -> (1 <= height)%Z -> 0 < r ->
  exists ow oh,
    Picdate.fine_tune r width height = inr (ow, oh)
    /\ 0 <= ow /\ ow < inject_Z width
    /\ 0 <= oh /\ oh < inject_Z height.
Proof.
  intros Hw Hh Hr.
  assert (Hw' : 1 <= inject_Z width) by (rewrite <- (Zle_Qle 1); exact Hw).
  assert (Hh' : 1 <= inject_Z height) by (rewrite <- (Zle_Qle 1); exact Hh).
  set (w := inject_Z width) in *. set (h := inject_Z height) in *.
  assert (Hwh : (w / h) * h == w) by (field; lra).
  assert (Hinv : (1 / r) * r == 1) by (field; lra).
  assert (Hinv0 : 0 < 1 / r).
  { apply Qlt_shift_div_l; lra. }
  unfold Picdate.fine_tune.
  rewrite int_truediv_Q by lia. fold w h.
  rewrite (fdiv_Q (of_int 1) r) by lra.
  rewrite !half_excess_Q.
  cbn [of_int QFloat fadd fsub fmul lit_0_01]. fold w h.
  change (inject_Z 1) with 1. change (inject_Z 0) with 0.
  set (a := w / h) in *. set (inv := 1 / r) in *.
  destruct (width >? height)%Z.
  - destruct (fgt a (inv + (1 # 100))) eqn:G1.
    + apply fgt_Q in G1. eexists _, _. split; [reflexivity|].
      assert (inv * h < w) by nra.
      assert (0 < inv * h) by nra.
      repeat split; try lra.
      * apply Qle_shift_div_l; lra.
      * apply Qlt_shift_div_r; lra.
    + destruct (flt a (inv - (1 # 100))) eqn:G2.
      * apply flt_Q in G2. eexists _, _. split; [reflexivity|].
        assert (r * w < h) by nra.
        assert (0 < r * w) by nra.
        repeat split; try lra.
        -- apply Qle_shift_div_l; lra.
        -- apply Qlt_shift_div_r; lra.
      * eexists _, _. split; [reflexivity|]. repeat split; lra.
  - destruct (fgt a (r + (1 # 100))) eqn:G1.
    + apply fgt_Q in G1. eexists _, _. split; [reflexivity|].
      assert (r * h < w) by nra.
      assert (0 < r * h) by nra.
      repeat split; try lra.
      * apply Qle_shift_div_l; lra.
      * apply Qlt_shift_div_r; lra.
    + destruct (flt a (r - (1 # 100))) eqn:G2.
      * apply flt_Q in G2. eexists _, _. split; [reflexivity|].
        assert (inv * w < h) by nra.
        assert (0 < inv * w) by nra.
        repeat split; try lra.
        -- apply Qle_shift_div_l; lra.
        -- apply Qlt_shift_div_r; lra.
      * eexists _, _. split; [reflexivity|]. repeat split; lra.
Qed.

Lemma crop_offsets_run inpath (cfg : Picdate.config Q) w h r ow oh :
  Picdate.fine_tune_aspect_ratio cfg <> "none" ->
  fraction_to_float (Picdate.fine_tune_aspect_ratio cfg) = inr r ->
  Picdate.fine_tune r w h = inr (ow, oh) ->
  outcome (Picdate.crop_offsets inpath cfg w h) = inr (ow, oh).
Proof.
  intros Hn Hr Hft. unfold Picdate.crop_offsets.
  apply String.eqb_neq in Hn. rewrite Hn, Hr. cbn [negb]. run.
  rewrite Hft. run.
  destruct (fgt oh (of_int 0) || fgt ow (of_int 0)); now run.
Qed.

Lemma scaled_inside (side off pos : Q) :
  0 <= off -> off < side -> 0 <= pos -> pos <= 1 ->
  0 <= (side - off) * pos /\ (side - off) * pos <= side.
Proof. intros. split; nra. Qed.

(** C10. For an image of at least one pixel each way, a fine-tune ratio
  [0 < r <= 1] and a position within [0,1] x [0,1], the offsets satisfy
  [0 <= offset_w < width] and [0 <= offset_h < height], and the point
  where the text is drawn lies in the rectangle of the image.  Floats
  are read as exact rationals. *)
Theorem anchor_inside_image (inpath : string) (cfg : Picdate.config Q)
    (width height : Z) (r : Q) :
  (1 <= width)%Z -> (1 <= height)%Z ->
  Picdate.fine_tune_aspect_ratio cfg <> "none" ->
  fraction_to_float (Picdate.fine_tune_aspect_ratio cfg) = inr r ->
  0 < r -> r <= 1 ->
  0 <= Picdate.pos_x cfg -> Picdate.pos_x cfg <= 1 ->
  0 <= Picdate.pos_y cfg -> Picdate.pos_y cfg <= 1 ->
  exists offset_w offset_h,
    outcome (Picdate.crop_offsets inpath cfg width height)
    = inr (offset_w, offset_h)
    /\ 0 <= offset_w /\ offset_w < inject_Z width
    /\ 0 <= offset_h /\ offset_h < inject_Z height
    /\ (let (x, y) := Picdate.draw_point cfg width height offset_w offset_h in
        0 <= x /\ x <= inject_Z width /\ 0 <= y /\ y <= inject_Z height).
Proof.
  intros Hw Hh Hn Hr Hr0 Hr1 Hx0 Hx1 Hy0 Hy1.
  destruct (fine_tune_bounds r width height Hw Hh Hr0)
    as (ow & oh & Hft & Hw0 & Hw1 & Hh0 & Hh1).
  exists ow, oh. split; [eapply crop_offsets_run; eassumption|].
  repeat (split; [assumption|]).
  unfold Picdate.draw_point. cbn [fmul fsub of_int QFloat].
  destruct (scaled_inside (inject_Z width) ow (Picdate.pos_x cfg)); try assumption.
  destruct (scaled_inside (inject_Z height) oh (Picdate.pos_y cfg)); try assumption.
  auto.
Qed.
End ExactGeometry.

(* ===================================================================== *)
(** * The font size, for any arithmetic                                  *)
(* ===================================================================== *)

Section FontSize.
Context {F : Type} {FO : FloatOps F}.

Lemma pad_font_size_max (width height : Z) :
  Pad.font_size width height = Z.max width height / 36.
Proof. unfold Pad.font_size. destruct (Z.gtb_spec width height); f_equal; lia. Qed.

Lemma picdate_font_size_max (cfg : Picdate.config F) (width height : Z) :
  Picdate.font_size cfg width height
  = Picdate.font_size cfg (Z.max width height) (Z.max width height).
Proof. unfold Picdate.font_size. now rewrite Z.max_id. Qed.

(** C8, as the code has it.  pad draws with a font of
  [max(width, height) // 36] pixels, in integer arithmetic, which is at
  least 1 exactly when the longer side has at least 36 pixels.  picdate
  draws with [int(text_size * max(width, height) // 152)], in the
  arithmetic of floats: the product as the floats give it, floor-divided
  by 152 and turned into an int; the size depends on the image through
  its longer side only, and what the division or the conversion raises
  is raised.  Neither size is raised to a minimum. *)
Theorem font_sizes (cfg : Picdate.config F) (width height : Z) :
  Pad.font_size width height = Z.max width height / 36
  /\ (1 <= Pad.font_size width height <-> 36 <= Z.max width height)
  /\ (Pad.font_size width height = 0 <-> 0 <= Z.max width height < 36)
  /\ Picdate.font_size cfg width height
     = match ffloordiv (fmul (Picdate.text_size cfg)
                             (of_int (Z.max width height)))
                       (of_int 152) with
       | inl e => inl e
       | inr size => to_int size
       end
  /\ Picdate.font_size cfg width height = Picdate.font_size cfg height width
  /\ (forall width' height',
        Z.max width' height' = Z.max width height ->
        Picdate.font_size cfg width' height'
        = Picdate.font_size cfg width height
        /\ Pad.font_size width' height' = Pad.font_size width height).
Proof.
  pose proof (pad_font_size_max width height) as Hpad.
  split; [exact Hpad|]. rewrite Hpad.
  split; [|split; [|split; [reflexivity|split]]].
  - split; intros Hm.
    + destruct (Z.le_gt_cases 36 (Z.max width height)) as [|Hlt]; [assumption|].
      assert (Z.max width height / 36 <= 0); [|lia].
      destruct (Z.le_gt_cases 0 (Z.max width height)).
      * rewrite Z.div_small; lia.
      * assert (Z.max width height / 36 < 0) by (apply Z.div_lt_upper_bound; lia). lia.
    + apply Z.div_le_lower_bound; lia.
  - split; intros Hm.
    + apply Z.div_small_iff in Hm; lia.
    + apply Z.div_small. exact Hm.
  - rewrite (picdate_font_size_max cfg width height),
            (picdate_font_size_max cfg height width).
    now rewrite Z.max_comm.
  - intros width' height' Hmax. split.
    + rewrite (picdate_font_size_max cfg width' height'),
              (picdate_font_size_max cfg width height).
      now rewrite Hmax.
    + now rewrite !pad_font_size_max, Hmax.
Qed.

End FontSize.

(* ===================================================================== *)
(** * Orientation, and the ratio on the command line                    *)
(* ===================================================================== *)

Section Orientation.
Context {F : Type} {FO : FloatOps F} {E : Env F} {RQ : Repr (Picdate.args F)}.

Lemma bind_inr_inv {A B} (m : M A) (k : A -> M B) (b : B) :
  outcome (bind m k) = inr b ->
  exists tr a, m = (tr, inr a) /\ outcome (k a) = inr b.
Proof.
  destruct m as [tr [e|a]]; cbn; [discriminate|].
  intros Hk. exists tr, a. split; [reflexivity|].
  unfold outcome. now destruct (k a).
Qed.

Lemma call_inr_inv {A} (r : exn + A) tr (a : A) :
  call r = (tr, inr a) -> r = inr a.
Proof. now intros [= _ ->]. Qed.

(** C4, as the code has it.  picdate turns the image as its stored
  orientation says before it measures the sides for the geometry
  whenever the metadata holds the original capture time (tag 36867);
  pad never turns the image and measures the sides as they are stored. *)
Theorem orientation_before_measure (inpath : string)
    (cp : Pad.config F) (cq : Picdate.config F) (img : image) :
  image_open inpath = inr img ->
  (forall p,
      outcome (Pad.prepare inpath cp) = inr p ->
      Pad.p_img p = img /\ (Pad.p_width p, Pad.p_height p) = size img)
  /\ (forall m v p,
      getexif img = inr (Some m) ->
      m !! DateTimeOriginal = Some v ->
      outcome (Picdate.prepare inpath cq) = inr p ->
      exists img',
        exif_transpose img = inr img'
        /\ Picdate.p_img p = img'
        /\ (Picdate.p_width p, Picdate.p_height p) = size img').
Proof.
  intros Hopen. split.
  - intros p. unfold Pad.prepare. rewrite Hopen. run.
    destruct (size img) as [w h].
    intros Hrun.
    apply bind_inr_inv in Hrun as (? & exif & _ & Hrun).
    apply bind_inr_inv in Hrun as (? & date & _ & Hrun).
    apply bind_inr_inv in Hrun as (? & txt & _ & Hrun).
    now injection Hrun as <-.
  - intros m v p Hexif Hm. unfold Picdate.prepare.
    rewrite Hopen. run. rewrite Hexif. run.
    destruct (has_original _ _ Hm) as [Hl Ho].
    unfold Picdate.resolve_date. rewrite Hl, Ho. run.
    intros Hrun.
    apply bind_inr_inv in Hrun as (? & [date img'] & Hres & Hrun).
    apply bind_inr_inv in Hrun as (? & txt & _ & Hrun).
    destruct (stamp_of_value v) as [e|stamp]; [discriminate Hres|].
    rewrite bind_returned in Hres.
    destruct (fromisoformat stamp) as [e|d]; [discriminate Hres|].
    rewrite bind_returned in Hres.
    destruct (exif_transpose img) as [e|img'']; [discriminate Hres|].
    rewrite bind_returned in Hres. injection Hres as _ <- <-.
    exists img''. split; [reflexivity|].
    destruct (size img'') as [w h]. now injection Hrun as <-.
Qed.




End Orientation.

(* ===================================================================== *)
(** * Mirroring the source directory                                     *)
(* ===================================================================== *)

Section Mirroring.
Context {F : Type} {E : Env F}.

Lemma prefix_app (old rest : string) : String.prefix old (old ++ rest) = true.
Proof.
  induction old as [|c old IH];
    [change (EmptyString ++ rest) with rest; now destruct rest|].
  change (String c old ++ rest) with (String c (old ++ rest)).
  cbn [String.prefix].
  destruct (ascii_dec c c); [exact IH|contradiction].
Qed.

Lemma replace_scan_skip old new count (k rest : string) :
  PyStr.replace_scan old new count (String.length k) (k ++ rest)
  = PyStr.replace_scan old new count O rest.
Proof. induction k as [|c k IH]; [reflexivity|exact IH]. Qed.

(** What [str.replace] makes of a path that starts with the pattern:
    the pattern at the front is replaced, and the scan goes on through
    the remainder. *)
Lemma replace_prefixed (c : ascii) (old new rest : string) :
  PyStr.replace (String c old) new None (String c old ++ rest)
  = new ++ PyStr.replace (String c old) new None rest.
Proof.
  unfold PyStr.replace.
  change (String c old ++ rest) with (String c (old ++ rest)).
  cbn [PyStr.replace_scan PyStr.may_replace andb PyStr.used_one].
  change (String c (old ++ rest)) with (String c old ++ rest).
  rewrite prefix_app. cbn [String.length Nat.pred].
  now rewrite replace_scan_skip.
Qed.

Lemma mirror_prefixed (in_dir out_dir rest : string) :
  absolute in_dir <> EmptyString ->
  Scheduler.mirror in_dir out_dir (absolute in_dir ++ rest)
  = absolute out_dir
    ++ PyStr.replace (absolute in_dir) (absolute out_dir) None rest.
Proof.
  intros Hne. unfold Scheduler.mirror.
  destruct (absolute in_dir) as [|c old]; [contradiction|].
  apply replace_prefixed.
Qed.

(** X1. The skip rules of the loop: a submitted task has an output path
    other than its input path, and one that was free when overwriting
    is off. *)
Lemma submitted_tasks_checked {C} in_dir out_dir overwrite (cfg : C) exts files t :
  In t (snd (Scheduler.submit_tasks in_dir out_dir overwrite cfg exts files)) ->
  Scheduler.in_path t <> Scheduler.out_path t
  /\ Scheduler.out_path t = Scheduler.mirror in_dir out_dir (Scheduler.in_path t)
  /\ (overwrite = false -> path_exists (Scheduler.out_path t) = false)
  /\ exists file, In file files /\ Scheduler.in_path t = absolute file
                  /\ PyStr.mem (PyStr.lower (suffix file)) exts = true.
Proof.
  induction files as [|file files IH]; cbn [Scheduler.submit_tasks snd].
  - intros [].
  - destruct (Scheduler.submit_tasks in_dir out_dir overwrite cfg exts files)
      as [tr tasks]. cbn [snd] in IH.
    assert (Hrest : In t tasks ->
      Scheduler.in_path t <> Scheduler.out_path t
      /\ Scheduler.out_path t = Scheduler.mirror in_dir out_dir (Scheduler.in_path t)
      /\ (overwrite = false -> path_exists (Scheduler.out_path t) = false)
      /\ exists file0, In file0 (file :: files)
                       /\ Scheduler.in_path t = absolute file0
                       /\ PyStr.mem (PyStr.lower (suffix file0)) exts = true).
    { intros Ht. destruct (IH Ht) as (? & ? & ? & f & ? & ? & ?).
      repeat split; try assumption. exists f. repeat split; auto. now right. }
    destruct (PyStr.mem (PyStr.lower (suffix file)) exts) eqn:Hext;
      cbn [negb]; [|exact Hrest].
    destruct (negb overwrite && path_exists _) eqn:Hex; [exact Hrest|].
    destruct (String.eqb_spec (absolute file)
                (Scheduler.mirror in_dir out_dir (absolute file))) as [Heq|Hne];
      [exact Hrest|].
    cbn [snd]. intros [<-|Ht]; [|exact (Hrest Ht)].
    cbn [Scheduler.in_path Scheduler.out_path].
    repeat split; try assumption.
    + intros ->. cbn [negb andb] in Hex. exact Hex.
    + exists file. repeat split; auto. now left.
Qed.

End Mirroring.

(** C6 on [/in/in.jpg]: the file of the source root [/in] is sent to
    [/out/out.jpg], not to [/out/in.jpg]; [str.replace] has replaced the
    root inside the remainder too. *)
Theorem mirror_rewrites_remainder :
  Scheduler.mirror (E := Sample.env) "/in" "/out" ("/in" ++ "/in.jpg")
  = "/out" ++ "/out.jpg"
  /\ "/out" ++ "/out.jpg" <> "/out" ++ "/in.jpg".
Proof. split; [reflexivity|discriminate]. Qed.

(** C9 on the sample directory [/in], with or without [--force]: the
    tasks for [/in/in.jpg] and [/in/out.jpg] are both submitted, and both
    write [/out/out.jpg]. *)
Theorem submitted_outputs_collide (overwrite : bool) :
  let tasks :=
    fst (Picdate.add_date_in_dir_mt (E := Sample.env) "/in" "/out" false
           overwrite (Sample.picdate_config "2/3")
           (fun _ => Scheduler.Finished)) in
  map (fun t => (Scheduler.in_path t, Scheduler.out_path t)) tasks
  = [ ("/in/in.jpg", "/out/out.jpg"); ("/in/out.jpg", "/out/out.jpg");
      ("/in/broken.jpg", "/out/broken.jpg");
      ("/in/dashed.jpg", "/out/dashed.jpg");
      ("/in/wide.jpg", "/out/wide.jpg");
      ("/in/untimed.jpg", "/out/untimed.jpg") ]
  /\ ~ NoDup (map Scheduler.out_path tasks).
Proof.
  destruct overwrite.
  - split; [vm_compute; reflexivity|].
    vm_compute. intros Hnd. inversion Hnd as [|x l Hnotin _]; subst.
    apply Hnotin. now left.
  - split; [vm_compute; reflexivity|].
    vm_compute. intros Hnd. inversion Hnd as [|x l Hnotin _]; subst.
    apply Hnotin. now left.
Qed.
(* ===================================================================== *)
(** * The properties at work in the sample world                         *)
(* ===================================================================== *)




Lemma ascii_prints (w : Ref.world) (i o : string) :
  Ref.is_ascii i = true -> Ref.is_ascii o = true ->
  printing_succeeds (E := Ref.env w) i o.
Proof. intros Hi Ho e. cbn. unfold Ref.print_ascii. now rewrite Hi, Ho. Qed.

(** The worker on a file that cannot be decoded: the exception is
    printed and the worker returns; the directory run over the sample
    world, where that file is, ends normally. *)
Lemma worker_never_raises_witness :
  Picdate.add_date_to_img (E := Sample.env) "/in/broken.jpg" "/out/broken.jpg"
    (Sample.picdate_config "2/3")
  = ([PrintExc UnidentifiedImageError], inr tt)
  /\ outcome (snd (Picdate.add_date_in_dir_mt (E := Sample.env) "/in" "/out"
                     false true (Sample.picdate_config "2/3")
                     (fun _ => Scheduler.Finished)))
     = inr None.
Proof.
  destruct (worker_never_raises (E := Sample.env) "/in/broken.jpg"
              "/out/broken.jpg" Sample.pad_config (Sample.picdate_config "2/3")
              (ascii_prints Sample.world "/in/broken.jpg" "/out/broken.jpg"
                 eq_refl eq_refl))
    as (_ & _ & _ & Hworker & _ & Hbatch).
  split.
  - apply (Hworker [] UnidentifiedImageError). reflexivity.
  - apply (Hbatch "/in" "/out" false true (fun _ => Scheduler.Finished)).
    vm_compute. repeat (constructor; [intros e; reflexivity|]). constructor.
Defined.

(** C2 fails when the printing in the handler fails.  The file
    [/album/été.jpg] is no image, so the body of the worker raises; the
    handler prints the exception and the local variables, the paths
    among them, on a standard output in the ASCII encoding, which cannot
    encode the name: the exception of the printing leaves the worker, and
    the directory run over [/album] ends with it. *)
Lemma printing_failure_leaves_worker :
  Pad.add_date_to_img_body (E := Sample.album_env) "/album/été.jpg"
    "/out/été.jpg" Sample.pad_config
  = ([], inl UnidentifiedImageError)
  /\ Pad.add_date_to_img (E := Sample.album_env) "/album/été.jpg"
       "/out/été.jpg" Sample.pad_config
     = ([], inl UnicodeEncodeError)
  /\ Picdate.add_date_to_img (E := Sample.album_env) "/album/été.jpg"
       "/out/été.jpg" (Sample.picdate_config "2/3")
     = ([], inl UnicodeEncodeError)
  /\ outcome (snd (Pad.add_date_in_dir_mt (E := Sample.album_env) "/album"
                     "/out" false true Sample.pad_config
                     (fun _ => Scheduler.Finished)))
     = inl UnicodeEncodeError
  /\ outcome (snd (Picdate.add_date_in_dir_mt (E := Sample.album_env) "/album"
                     "/out" false true (Sample.picdate_config "2/3")
                     (fun _ => Scheduler.Finished)))
     = inl UnicodeEncodeError.
Proof. repeat split; vm_compute; reflexivity. Qed.

(** A capture time written with dashes fails the task. *)
Lemma unparseable_stamp_fails_witness :
  Pad.add_date_to_img (E := Sample.env) "/in/dashed.jpg" "/out/dashed.jpg"
    Sample.pad_config
  = ([PrintExc ValueError], inr tt)
  /\ Picdate.add_date_to_img (E := Sample.env) "/in/dashed.jpg"
       "/out/dashed.jpg" (Sample.picdate_config "2/3")
     = ([PrintExc ValueError], inr tt).
Proof.
  destruct (unparseable_stamp_fails (E := Sample.env) "/in/dashed.jpg"
              "/out/dashed.jpg" Sample.pad_config (Sample.picdate_config "2/3")
              Sample.dashed Sample.dashed_tags
              (ExifStr "2023-05-01 10:00:00") ValueError)
    as (_ & _ & _ & _ & Hprinted); try reflexivity.
  apply Hprinted. reflexivity.
Defined.

(** C3 fails for a capture time with the letter T between the date and
    the time.  The value is not in the layout of the field, yet the
    parser reads the stamp made of it, and both programs stamp the photo
    with that date and write the output file. *)
Lemma lettered_stamp_accepted :
  Layout.parse_exif "2023:05:01T10:00:00" = None
  /\ image_open (Env := Sample.album_env) "/album/t.jpg" = inr Sample.lettered
  /\ getexif Sample.lettered = inr (Some Sample.lettered_tags)
  /\ Sample.lettered_tags !! DateTimeOriginal
     = Some (ExifStr "2023:05:01T10:00:00")
  /\ outcome (bind (Pad.prepare (E := Sample.album_env) "/album/t.jpg"
                      Sample.pad_config)
                   (fun p => ret (Pad.p_date p, Pad.p_text p)))
     = inr (mk_resolved (mk_datetime 2023 5 1 10 0 0 0) metadataOriginal,
            "`23 5 1")
  /\ (exists img,
        Pad.add_date_to_img (E := Sample.album_env) "/album/t.jpg" "/out/t.jpg"
          Sample.pad_config
        = ([Mkdir "/out"; Save img "/out/t.jpg" 95 (Some "Exif")], inr tt))
  /\ (exists img,
        Picdate.add_date_to_img (E := Sample.album_env) "/album/t.jpg"
          "/out/t.jpg" (Sample.picdate_config "2/3")
        = ([Print (Picdate.fine_tune_notice "/album/t.jpg"); Mkdir "/out";
            Save img "/out/t.jpg" 95 (Some "Exif")], inr tt)).
Proof.
  split; [reflexivity|]. split; [reflexivity|]. split; [reflexivity|].
  split; [reflexivity|]. split; [vm_compute; reflexivity|].
  split; eexists; vm_compute; reflexivity.
Qed.

(** C4 fails in both programs.  The sample photo has metadata asking for
    a quarter turn, yet pad measures 4000 x 3000, the sides as stored,
    where the turned image is 3000 x 4000.  picdate does the same with the
    photo whose metadata holds the orientation but no capture time. *)
Lemma orientation_not_applied :
  (image_open (Env := Sample.env) "/in/in.jpg" = inr Sample.photo
   /\ getexif Sample.photo = inr (Some Sample.photo_tags)
   /\ exists p img',
        outcome (Pad.prepare (E := Sample.env) "/in/in.jpg" Sample.pad_config)
        = inr p
        /\ exif_transpose (Env := Sample.env) Sample.photo = inr img'
        /\ (Pad.p_width p, Pad.p_height p) = (4000, 3000)
        /\ size img' = (3000, 4000)
        /\ (Pad.p_width p, Pad.p_height p) <> size img')
  /\ (image_open (Env := Sample.env) "/in/untimed.jpg" = inr Sample.untimed
      /\ getexif Sample.untimed = inr (Some Sample.untimed_tags)
      /\ exists p img',
           outcome (Picdate.prepare (E := Sample.env) "/in/untimed.jpg"
                      (Sample.picdate_config "2/3"))
           = inr p
           /\ exif_transpose (Env := Sample.env) Sample.untimed = inr img'
           /\ (Picdate.p_width p, Picdate.p_height p) = (4000, 3000)
           /\ size img' = (3000, 4000)
           /\ (Picdate.p_width p, Picdate.p_height p) <> size img').
Proof.
  split.
  - split; [reflexivity|]. split; [reflexivity|].
    eexists _, _. split; [vm_compute; reflexivity|].
    split; [vm_compute; reflexivity|].
    split; [reflexivity|]. split; [reflexivity|]. discriminate.
  - split; [reflexivity|]. split; [reflexivity|].
    eexists _, _. split; [vm_compute; reflexivity|].
    split; [vm_compute; reflexivity|].
    split; [reflexivity|]. split; [reflexivity|]. discriminate.
Qed.

(** picdate on the sample photo measures the turned image. *)
Lemma orientation_before_measure_witness :
  exists p,
    outcome (Picdate.prepare (E := Sample.env) "/in/in.jpg"
               (Sample.picdate_config "2/3")) = inr p
    /\ (Picdate.p_width p, Picdate.p_height p) = (3000, 4000).
Proof.
  destruct (Picdate.prepare (E := Sample.env) "/in/in.jpg"
              (Sample.picdate_config "2/3")) as [tr [e|p]] eqn:Hrun;
    [vm_compute in Hrun; discriminate Hrun|].
  exists p. split; [reflexivity|].
  destruct (proj2 (orientation_before_measure (E := Sample.env) "/in/in.jpg"
                     Sample.pad_config (Sample.picdate_config "2/3")
                     Sample.photo eq_refl)
                  Sample.photo_tags (ExifStr "2023:05:01 10:00:00") p
                  eq_refl eq_refl)
    as (img' & Ht & _ & Hdims).
  - now rewrite Hrun.
  - rewrite Hdims. injection Ht as <-. reflexivity.
Defined.

(** The panorama, 4000 x 2000 against the target 3/2: only the width gets
    an offset. *)
Lemma offsets_never_both_witness :
  exists offset_w offset_h : Q,
    outcome (Picdate.crop_offsets (E := Sample.env) "/in/wide.jpg"
               (Sample.picdate_config "2/3") 4000 2000)
    = inr (offset_w, offset_h)
    /\ (offset_w = of_int 0 \/ offset_h = of_int 0).
Proof.
  exists ((4000 - 1 / (2 / 3) * 2000) / 2)%Q, 0%Q.
  assert (Hrun :
    outcome (Picdate.crop_offsets (E := Sample.env) "/in/wide.jpg"
               (Sample.picdate_config "2/3") 4000 2000)
    = inr ((4000 - 1 / (2 / 3) * 2000) / 2, 0)%Q) by reflexivity.
  split; [exact Hrun|].
  exact (proj1 (offsets_never_both (E := Sample.env) "/in/wide.jpg"
                  (Sample.picdate_config "2/3") 4000 2000 _ _ Hrun)).
Defined.

(** The panorama again: offsets and drawing point within the image. *)
Lemma anchor_inside_image_witness :
  exists offset_w offset_h : Q,
    outcome (Picdate.crop_offsets (E := Sample.env) "/in/wide.jpg"
               (Sample.picdate_config "2/3") 4000 2000)
    = inr (offset_w, offset_h)
    /\ (0 <= offset_w /\ offset_w < 4000)%Q
    /\ (0 <= offset_h /\ offset_h < 2000)%Q.
Proof.
  destruct (anchor_inside_image (E := Sample.env) "/in/wide.jpg"
              (Sample.picdate_config "2/3") 4000 2000 (2 / 3)%Q)
    as (ow & oh & Hrun & Hw0 & Hw1 & Hh0 & Hh1 & _);
    try reflexivity; try discriminate.
  exists ow, oh. auto.
Defined.


(** C8 fails for a 30 x 30 image at the default text size 4.24: the font
    size is 0, in binary64 as in exact arithmetic, and in pad too. *)
Lemma small_image_font_size_zero :
  Picdate.font_size (Sample.picdate_config64 424 "2/3") 30 30 = inr 0
  /\ Picdate.font_size (Sample.picdate_config "2/3") 30 30 = inr 0
  /\ Pad.font_size 30 30 = 0
  /\ ~ (1 <= 0).
Proof.
  split; [vm_compute; reflexivity|].
  split; [reflexivity|]. split; [reflexivity|]. lia.
Qed.

(* ===================================================================== *)
(** * Further properties of the scheduler                                *)
(* ===================================================================== *)

Section SchedulerFacts.
Context {F : Type} {E : Env F}.







End SchedulerFacts.

Section MirrorFacts.
Context {F : Type} {E : Env F}.

Lemma replace_scan_absent (old new : string) (count : option nat) (s : string) :
  occurs old s = false -> PyStr.replace_scan old new count O s = s.
Proof.
  induction s as [|c s IH]; [reflexivity|].
  cbn [occurs PyStr.replace_scan]. intros Ho.
  apply orb_false_iff in Ho as [Hp Ho].
  rewrite Hp, andb_false_r. now rewrite IH.
Qed.

Lemma mirror_absent (in_dir out_dir rest : string) :
  absolute in_dir <> EmptyString ->
  occurs (absolute in_dir) rest = false ->
  Scheduler.mirror in_dir out_dir (absolute in_dir ++ rest)
  = absolute out_dir ++ rest.
Proof.
  intros Hne Ho. rewrite mirror_prefixed by exact Hne. f_equal.
  destruct (absolute in_dir) as [|c old]; [contradiction|].
  now apply replace_scan_absent.
Qed.

(** X3. When the name of the source root does not occur again in the rest
  of a candidate's path, the destination is the destination root followed
  by that rest, unchanged. *)
Theorem mirror_keeps_remainder (in_dir out_dir rest : string) :
  absolute in_dir <> EmptyString ->
  occurs (absolute in_dir) rest = false ->
  Scheduler.mirror in_dir out_dir (absolute in_dir ++ rest)
  = absolute out_dir ++ rest.
Proof.
  intros Hne Ho. rewrite mirror_prefixed by exact Hne. f_equal.
  destruct (absolute in_dir) as [|c old]; [contradiction|].
  now apply replace_scan_absent.
Qed.

Lemma append_inj_l (a b c : string) : a ++ b = a ++ c -> b = c.
Proof.
  induction a as [|x a IH]; [auto|].
  change (String x a ++ b) with (String x (a ++ b)).
  change (String x a ++ c) with (String x (a ++ c)).
  intros [= H]. auto.
Qed.

Lemma plain_mirror_inj in_dir out_dir f g :
  absolute in_dir <> EmptyString ->
  plain_under in_dir f -> plain_under in_dir g ->
  Scheduler.mirror in_dir out_dir (absolute f)
  = Scheduler.mirror in_dir out_dir (absolute g) ->
  absolute f = absolute g.
Proof.
  intros Hne (rf & Hf & Hof) (rg & Hg & Hog). rewrite Hf, Hg.
  rewrite !mirror_absent by assumption.
  intros H. apply append_inj_l in H. now subst.
Qed.

Lemma submitted_from_files {C} in_dir out_dir overwrite (cfg : C) exts files t :
  In t (snd (Scheduler.submit_tasks in_dir out_dir overwrite cfg exts files)) ->
  exists file, In file files
               /\ Scheduler.in_path t = absolute file
               /\ Scheduler.out_path t
                  = Scheduler.mirror in_dir out_dir (absolute file)
               /\ allowed exts file = true.
Proof.
  induction files as [|file files IH]; cbn [Scheduler.submit_tasks snd];
    [intros []|].
  destruct (Scheduler.submit_tasks in_dir out_dir overwrite cfg exts files)
    as [tr tasks]. cbn [snd] in IH.
  assert (Hrest : In t tasks ->
    exists file0, In file0 (file :: files)
                  /\ Scheduler.in_path t = absolute file0
                  /\ Scheduler.out_path t
                     = Scheduler.mirror in_dir out_dir (absolute file0)
                  /\ allowed exts file0 = true).
  { intros Ht. destruct (IH Ht) as (f & ? & ? & ? & ?). exists f.
    repeat split; auto. now right. }
  fold (allowed exts file).
  destruct (allowed exts file) eqn:Hal; cbn [negb]; [|exact Hrest].
  destruct (negb overwrite && _); [exact Hrest|].
  destruct (String.eqb _ _); [exact Hrest|].
  cbn [snd]. intros [<-|Ht]; [|exact (Hrest Ht)].
  exists file. repeat split; auto. now left.
Qed.

(** X4. When no candidate repeats the name of the source root in the rest
  of its path, distinct candidates are given distinct output paths. *)
Theorem plain_outputs_distinct {C} (in_dir out_dir : string)
    (overwrite : bool) (cfg : C) (exts files : list string) :
  absolute in_dir <> EmptyString ->
  (forall file, In file files -> plain_under in_dir file) ->
  NoDup (map absolute files) ->
  NoDup (map Scheduler.out_path
           (snd (Scheduler.submit_tasks in_dir out_dir overwrite cfg exts files))).
Proof.
  intros Hne Hplain Hnd.
  induction files as [|file files IH]; [constructor|].
  cbn [map] in Hnd. inversion Hnd as [|x l Hnotin Hnd']; subst.
  assert (IH' := IH (fun f Hf => Hplain f (or_intror Hf)) Hnd').
  assert (Hfresh : forall t,
    In t (snd (Scheduler.submit_tasks in_dir out_dir overwrite cfg exts files)) ->
    Scheduler.out_path t <> Scheduler.mirror in_dir out_dir (absolute file)).
  { intros t Ht Heq.
    destruct (submitted_from_files _ _ _ _ _ _ _ Ht) as (g & Hg & _ & Hout & _).
    rewrite Hout in Heq.
    apply plain_mirror_inj in Heq; auto; [|now apply Hplain; right
                                          |now apply Hplain; left].
    apply Hnotin. rewrite <- Heq. apply list_elem_of_In. now apply in_map. }
  cbn [Scheduler.submit_tasks].
  destruct (Scheduler.submit_tasks in_dir out_dir overwrite cfg exts files)
    as [tr tasks]. cbn [snd] in *.
  destruct (negb _); [exact IH'|].
  destruct (negb overwrite && _); [exact IH'|].
  destruct (String.eqb _ _); [exact IH'|].
  cbn [snd map Scheduler.out_path]. constructor; [|exact IH'].
  intros Hin. apply list_elem_of_In, in_map_iff in Hin as (t & Ht & Hint).
  exact (Hfresh t Hint Ht).
Qed.


End MirrorFacts.

Section ExtensionFacts.
Context {F : Type} {E : Env F}.

Lemma lower_ascii_idem (c : ascii) :
  PyStr.lower_ascii (PyStr.lower_ascii c) = PyStr.lower_ascii c.
Proof. destruct c as [[] [] [] [] [] [] [] []]; reflexivity. Qed.

Lemma lower_ascii_comma (c : ascii) :
  Ascii.eqb (PyStr.lower_ascii c) "," = Ascii.eqb c ",".
Proof. destruct c as [[] [] [] [] [] [] [] []]; reflexivity. Qed.

Lemma lower_idem (s : string) : PyStr.lower (PyStr.lower s) = PyStr.lower s.
Proof.
  induction s as [|c s IH]; [reflexivity|].
  cbn [PyStr.lower]. now rewrite lower_ascii_idem, IH.
Qed.

Lemma lower_snoc (s : string) (c : ascii) :
  PyStr.lower (s ++ String c EmptyString)
  = PyStr.lower s ++ String (PyStr.lower_ascii c) EmptyString.
Proof.
  induction s as [|x s IH]; [reflexivity|].
  change (String x s ++ String c EmptyString)
    with (String x (s ++ String c EmptyString)).
  cbn [PyStr.lower]. rewrite IH. reflexivity.
Qed.

Lemma split_on_lower (cur s : string) :
  PyStr.split_on "," (PyStr.lower cur) (PyStr.lower s)
  = map PyStr.lower (PyStr.split_on "," cur s).
Proof.
  revert cur. induction s as [|c s IH]; intros cur; [reflexivity|].
  cbn [PyStr.lower PyStr.split_on]. rewrite lower_ascii_comma.
  destruct (Ascii.eqb c ","); cbn [map].
  - f_equal. apply (IH EmptyString).
  - rewrite <- lower_snoc. apply IH.
Qed.

Lemma mem_in (x : string) (xs : list string) :
  PyStr.mem x xs = true <-> In x xs.
Proof.
  unfold PyStr.mem. rewrite existsb_exists. split.
  - intros (y & Hy & Heq). apply String.eqb_eq in Heq. now subst.
  - intros Hx. exists x. split; [exact Hx|apply String.eqb_refl].
Qed.

(** X6. The list of extensions is taken without regard to case: writing
  it in other letters' case allows the same files; every allowed
  extension is in lower case and begins with a dot, so that a file
  without an extension is never submitted. *)
Theorem extensions_case_insensitive (C : Type) (img_exts : string) :
  Scheduler.allowed_exts (PyStr.lower img_exts) = Scheduler.allowed_exts img_exts
  /\ (forall e, In e (Scheduler.allowed_exts img_exts) ->
        PyStr.lower e = e /\ String.prefix "." e = true)
  /\ (forall in_dir out_dir overwrite (cfg : C) files t,
        In t (snd (Scheduler.submit_tasks in_dir out_dir overwrite cfg
                     (Scheduler.allowed_exts img_exts) files)) ->
        exists file, In file files
                     /\ Scheduler.in_path t = absolute file
                     /\ suffix file <> EmptyString).
Proof.
  assert (Hshape : forall e, In e (Scheduler.allowed_exts img_exts) ->
            PyStr.lower e = e /\ String.prefix "." e = true).
  { unfold Scheduler.allowed_exts. intros e He.
    apply in_map_iff in He as (i & <- & _).
    change ("." ++ PyStr.lower i) with (String "." (PyStr.lower i)).
    cbn [PyStr.lower]. rewrite lower_idem. split; [reflexivity|].
    cbn. now destruct (PyStr.lower i). }
  split; [|split; [exact Hshape|]].
  - unfold Scheduler.allowed_exts, PyStr.split.
    pose proof (split_on_lower EmptyString img_exts) as Hs.
    cbn [PyStr.lower] in Hs. rewrite Hs, map_map.
    apply map_ext. intros i. now rewrite lower_idem.
  - intros in_dir out_dir overwrite cfg files t Ht.
    destruct (submitted_from_files _ _ _ _ _ _ _ Ht) as (f & Hf & Hin & _ & Hal).
    exists f. split; [exact Hf|]. split; [exact Hin|].
    intros Hs. unfold allowed in Hal. rewrite Hs in Hal.
    apply mem_in, Hshape in Hal as [_ Hdot]. discriminate Hdot.
Qed.

(** X7. What the coordinator prints while it waits, when no worker raises:
  one line for each task that timed out before the first interrupt, and
  nothing for what comes after it; a timeout does not end the loop, an
  interrupt does, with the result 1. *)
Theorem await_prints_timeouts (rs : list Scheduler.get_result) :
  (forall e, ~ In (Scheduler.Got (inl e)) rs) ->
  Scheduler.await rs
  = (map (fun _ => Print "TLE") (List.filter is_timeout (before_interrupt rs)),
     inr (if existsb is_interrupt rs then Some 1 else None)).
Proof.
  induction rs as [|r rs IH]; intros Hok; [reflexivity|].
  assert (Hrs : forall e, ~ In (Scheduler.Got (inl e)) rs).
  { intros e He. apply (Hok e). now right. }
  specialize (IH Hrs).
  destruct r as [[e|[]]| |]; cbn [Scheduler.await before_interrupt is_interrupt
                                    List.filter is_timeout existsb orb map].
  - exfalso. apply (Hok e). now left.
  - exact IH.
  - rewrite bind_emit, IH. reflexivity.
  - reflexivity.
Qed.

End ExtensionFacts.

(* ===================================================================== *)
(** * Further properties of the worker                                   *)
(* ===================================================================== *)

Section WorkerFacts.
Context {F : Type} {FO : FloatOps F} {E : Env F}.

Lemma trace_bind {A B} (m : M A) (k : A -> M B) :
  trace (bind m k)
  = (trace m ++ match outcome m with
                | inr a => trace (k a)
                | inl _ => []
                end)%list.
Proof.
  destruct m as [tr [e|a]]; cbn; [now rewrite app_nil_r|].
  now destruct (k a).
Qed.

Lemma outcome_bind {A B} (m : M A) (k : A -> M B) :
  outcome (bind m k)
  = match outcome m with
    | inr a => outcome (k a)
    | inl e => inl e
    end.
Proof. destruct m as [tr [e|a]]; cbn; [reflexivity|]. now destruct (k a). Qed.

Lemma count_saves_app (tr tr' : list event) :
  count_saves (tr ++ tr') = (count_saves tr + count_saves tr')%nat.
Proof. unfold count_saves. now rewrite List.filter_app, length_app. Qed.

Lemma nothing_then {A B} (m : M A) (k : A -> M B) :
  writes_nothing m -> (forall a, writes_on_return (k a)) ->
  writes_on_return (bind m k).
Proof.
  unfold writes_nothing, writes_on_return. intros Hm Hk.
  rewrite trace_bind, outcome_bind, count_saves_app, Hm.
  destruct (outcome m) as [e|a]; [reflexivity|apply Hk].
Qed.

Lemma nothing_bind {A B} (m : M A) (k : A -> M B) :
  writes_nothing m -> (forall a, writes_nothing (k a)) ->
  writes_nothing (bind m k).
Proof.
  unfold writes_nothing. intros Hm Hk.
  rewrite trace_bind, count_saves_app, Hm.
  destruct (outcome m) as [e|a]; [reflexivity|apply Hk].
Qed.

Lemma nothing_call {A} (r : exn + A) : writes_nothing (call r).
Proof. reflexivity. Qed.

Lemma nothing_ret {A} (a : A) : writes_nothing (ret a).
Proof. reflexivity. Qed.

Ltac quiet :=
  repeat first
    [ apply nothing_call | apply nothing_ret | reflexivity
    | apply nothing_bind; [|intros ?]
    | match goal with
      | |- writes_nothing (if ?b then _ else _) => destruct b
      | |- writes_nothing (match ?x with _ => _ end) => destruct x
      | |- writes_nothing (let (_, _) := ?x in _) => destruct x
      end ].

Lemma pad_prepare_quiet i (c : Pad.config F) : writes_nothing (Pad.prepare i c).
Proof. unfold Pad.prepare, Pad.resolve_date. quiet. Qed.

Lemma picdate_prepare_quiet i (c : Picdate.config F) :
  writes_nothing (Picdate.prepare i c).
Proof. unfold Picdate.prepare, Picdate.resolve_date. quiet. Qed.

Lemma crop_offsets_quiet i (c : Picdate.config F) w h :
  writes_nothing (Picdate.crop_offsets i c w h).
Proof. unfold Picdate.crop_offsets. quiet. Qed.

Lemma pad_save_once img exif o q : writes_on_return (Pad.save_image img exif o q).
Proof.
  unfold Pad.save_image, writes_on_return.
  destruct (path_exists _); [|destruct (mkdir_parents _) as [e|[]]];
    destruct exif; try destruct (info_exif img);
    try destruct (image_save _ _ _ _) as [e'|[]]; reflexivity.
Qed.

Lemma picdate_save_once img exif o q :
  writes_on_return (Picdate.save_image img exif o q).
Proof.
  unfold Picdate.save_image, writes_on_return.
  destruct (path_exists _); [|destruct (mkdir_parents _) as [e|[]]];
    destruct exif; try destruct (info_exif img);
    try destruct (image_save _ _ _ _) as [e'|[]]; reflexivity.
Qed.

Lemma pad_body_once i o (c : Pad.config F) :
  writes_on_return (Pad.add_date_to_img_body i o c).
Proof.
  unfold Pad.add_date_to_img_body, Pad.finish.
  apply nothing_then; [apply pad_prepare_quiet|intros p].
  apply nothing_then; [apply nothing_call|intros f].
  apply nothing_then; [apply nothing_call|intros img].
  apply pad_save_once.
Qed.

Lemma picdate_body_once i o (c : Picdate.config F) :
  writes_on_return (Picdate.add_date_to_img_body i o c).
Proof.
  unfold Picdate.add_date_to_img_body, Picdate.finish.
  apply nothing_then; [apply picdate_prepare_quiet|intros p].
  apply nothing_then; [apply crop_offsets_quiet|intros [ow oh]].
  apply nothing_then; [apply nothing_call|intros px].
  apply nothing_then; [apply nothing_call|intros f].
  apply nothing_then; [apply nothing_call|intros img].
  apply picdate_save_once.
Qed.

Lemma caught_saves (m : M unit) (i o : string) :
  count_saves (trace (try_except m (report i o)))
  = count_saves (trace m).
Proof.
  destruct m as [tr [e|a]]; [|reflexivity].
  cbn [try_except]. unfold report.
  destruct (print_exception i o e) as [e'|[]]; cbn [call bind emit trace fst];
    rewrite count_saves_app; cbn; lia.
Qed.

(** X8. A run of the worker writes one file when every step of its body
  succeeds and none when a step fails; it never writes two. *)
Theorem worker_writes_once (inpath outpath : string)
    (cp : Pad.config F) (cq : Picdate.config F) :
  count_saves (trace (Pad.add_date_to_img inpath outpath cp))
  = match outcome (Pad.add_date_to_img_body inpath outpath cp) with
    | inr _ => 1%nat
    | inl _ => O
    end
  /\ count_saves (trace (Picdate.add_date_to_img inpath outpath cq))
     = match outcome (Picdate.add_date_to_img_body inpath outpath cq) with
       | inr _ => 1%nat
       | inl _ => O
       end.
Proof.
  split; unfold Pad.add_date_to_img, Picdate.add_date_to_img;
    rewrite caught_saves; [apply pad_body_once|apply picdate_body_once].
Qed.

Lemma confined_bind {A B} (P : event -> Prop) (m : M A) (k : A -> M B) :
  Forall P (trace m) -> (forall a, Forall P (trace (k a))) ->
  Forall P (trace (bind m k)).
Proof.
  intros Hm Hk. rewrite trace_bind. apply Forall_app. split; [exact Hm|].
  destruct (outcome m); [constructor|apply Hk].
Qed.

Ltac confined :=
  repeat first
    [ apply confined_bind; [|intros ?]
    | match goal with
      | |- Forall _ (trace (call _)) => constructor
      | |- Forall _ (trace (ret _)) => constructor
      | |- Forall _ (trace (raise _)) => constructor
      | |- Forall _ (trace (emit _)) =>
          constructor; [cbn; auto|constructor]
      | |- Forall _ (trace (if ?b then _ else _)) => destruct b eqn:?
      | |- Forall _ (trace (match ?x with _ => _ end)) => destruct x eqn:?
      end ].

Lemma confined_caught (P : event -> Prop) (m : M unit) (i o : string) :
  Forall P (trace m) -> (forall e, P (PrintExc e)) ->
  Forall P (trace (try_except m (report i o))).
Proof.
  intros Hm Hp. destruct m as [tr [e|a]]; [|exact Hm].
  cbn [try_except]. unfold report.
  destruct (print_exception i o e) as [e'|[]]; cbn [call bind emit trace fst];
    apply Forall_app; (split; [exact Hm|]).
  - constructor.
  - constructor; [apply Hp|constructor].
Qed.

(** X9. What a run of the worker may do: print its two notices and the
  exception it caught, call [mkdir(parents=True, exist_ok=True)] on the
  parent of the output path, which makes that directory and its missing
  ancestors, and that only when the parent is missing, and save to the
  output path.  It makes no other call that creates a directory, saves
  nowhere else and fetches nothing. *)
Theorem worker_effects_confined (inpath outpath : string)
    (cp : Pad.config F) (cq : Picdate.config F) :
  Forall (worker_event inpath outpath)
         (trace (Pad.add_date_to_img inpath outpath cp))
  /\ Forall (worker_event inpath outpath)
            (trace (Picdate.add_date_to_img inpath outpath cq)).
Proof.
  split.
  - apply confined_caught; [|intros e; exact I].
    unfold Pad.add_date_to_img_body, Pad.prepare, Pad.resolve_date,
           Pad.finish, Pad.save_image.
    confined.
  - apply confined_caught; [|intros e; exact I].
    unfold Picdate.add_date_to_img_body, Picdate.prepare,
           Picdate.resolve_date, Picdate.finish, Picdate.crop_offsets,
           Picdate.save_image.
    confined.
Qed.

(** X10. The two programs stamp the same date: whenever picdate resolves a
  date for an image, pad resolves the same one; and pad's date is
  picdate's as soon as the turning of the image succeeds, or is not
  called for. *)
Theorem same_date_in_both (inpath : string) (img : image)
    (exif : option (gmap Z exif_value)) :
  (forall d img',
      outcome (Picdate.resolve_date inpath img exif) = inr (d, img') ->
      outcome (Pad.resolve_date inpath exif) = inr d)
  /\ (forall d,
        outcome (Pad.resolve_date inpath exif) = inr d ->
        match exif_transpose img with
        | inr img' =>
            outcome (Picdate.resolve_date inpath img exif)
            = inr (d, if lacks_original exif then img else img')
        | inl e =>
            outcome (Picdate.resolve_date inpath img exif)
            = if lacks_original exif then inr (d, img) else inl e
        end).
Proof.
  unfold Pad.resolve_date, Picdate.resolve_date.
  destruct (lacks_original exif).
  - rewrite !bind_emit. cbn [outcome snd].
    destruct (st_mtime inpath) as [e|t]; [split; intros; discriminate|].
    rewrite !bind_returned.
    destruct (fromtimestamp t) as [e|d0]; [split; intros; discriminate|].
    rewrite !bind_returned. cbn. split.
    + now intros d img' [= <- _].
    + intros d [= <-]. now destruct (exif_transpose img).
  - destruct (exif_original exif) as [e|v]; [split; intros; discriminate|].
    rewrite !bind_returned.
    destruct (stamp_of_value v) as [e|stamp]; [split; intros; discriminate|].
    rewrite !bind_returned.
    destruct (fromisoformat stamp) as [e|d0]; [split; intros; discriminate|].
    rewrite !bind_returned.
    destruct (exif_transpose img) as [e|img0]; cbn; split.
    + intros; discriminate.
    + now intros d [= <-].
    + now intros d img' [= <- _].
    + now intros d [= <-].
Qed.

End WorkerFacts.

(* ===================================================================== *)
(** * Further properties of the command line                             *)
(* ===================================================================== *)

Section CliFacts.
Context {F : Type} {FO : FloatOps F} {E : Env F}.
Context {RP : Repr (Pad.args F)} {RQ : Repr (Picdate.args F)}.

Lemma pad_cli_action (a : Pad.args F) (act : Pad.cli_action F) :
  outcome (Pad.cli a) = inr act ->
  act = if path_exists (Pad.a_src a) && is_file (Pad.a_src a) then
          if negb (is_file (Pad.a_dst a)) then Pad.SysExit 1
          else if negb (Pad.a_force a) && path_exists (Pad.a_dst a)
               then Pad.SysExit 1
               else Pad.RunWorker (Pad.a_src a) (Pad.a_dst a)
                                  (Pad.config_of_args a)
        else Pad.RunBatch (Pad.a_src a) (Pad.a_dst a) (Pad.a_recursive a)
                          (Pad.a_force a) (Pad.config_of_args a).
Proof.
  unfold Pad.cli. rewrite !outcome_bind. cbn [emit outcome snd].
  destruct (outcome (Pad.ensure_font _)) as [e|[]]; [discriminate|].
  destruct (path_exists _ && is_file _); [|now intros [= <-]].
  destruct (negb (is_file _));
    [rewrite outcome_bind; cbn; now intros [= <-]|].
  destruct (negb _ && path_exists _);
    [rewrite outcome_bind; cbn; now intros [= <-]|].
  now intros [= <-].
Qed.

Lemma picdate_cli_action (a : Picdate.args F) (act : Picdate.cli_action F) :
  outcome (Picdate.cli a) = inr act ->
  act = if path_exists (Picdate.a_src a) && is_file (Picdate.a_src a) then
          if negb (is_file (Picdate.a_dst a)) then Picdate.SysExit 1
          else if negb (Picdate.a_force a) && path_exists (Picdate.a_dst a)
               then Picdate.SysExit 1
               else Picdate.RunWorker (Picdate.a_src a) (Picdate.a_dst a)
                                      (Picdate.config_of_args a)
        else Picdate.RunBatch (Picdate.a_src a) (Picdate.a_dst a)
               (Picdate.a_recursive a) (Picdate.a_force a)
               (Picdate.config_of_args a) (Picdate.a_jobs a).
Proof.
  unfold Picdate.cli. rewrite !outcome_bind. cbn [emit outcome snd].
  destruct (outcome (Picdate.ensure_font _)) as [e|[]]; [discriminate|].
  destruct (path_exists _ && is_file _); [|now intros [= <-]].
  destruct (negb (is_file _));
    [rewrite outcome_bind; cbn; now intros [= <-]|].
  destruct (negb _ && path_exists _);
    [rewrite outcome_bind; cbn; now intros [= <-]|].
  now intros [= <-].
Qed.

(** X11. Single-file mode stamps a file only when the destination is
  already a file and [--force] is given: with a source that is a file and
  without [--force], [cli] can only exit with status 1.  (On a file
  system where what is a file exists.) *)
Theorem single_file_needs_force (ap : Pad.args F) (aq : Picdate.args F) :
  (forall p, is_file p = true -> path_exists p = true) ->
  (forall i o c,
      outcome (Pad.cli ap) = inr (Pad.RunWorker i o c) ->
      Pad.a_force ap = true
      /\ is_file (Pad.a_src ap) = true /\ is_file (Pad.a_dst ap) = true
      /\ i = Pad.a_src ap /\ o = Pad.a_dst ap)
  /\ (forall i o c,
      outcome (Picdate.cli aq) = inr (Picdate.RunWorker i o c) ->
      Picdate.a_force aq = true
      /\ is_file (Picdate.a_src aq) = true /\ is_file (Picdate.a_dst aq) = true
      /\ i = Picdate.a_src aq /\ o = Picdate.a_dst aq)
  /\ (is_file (Pad.a_src ap) = true -> Pad.a_force ap = false ->
      forall act, outcome (Pad.cli ap) = inr act -> act = Pad.SysExit 1)
  /\ (is_file (Picdate.a_src aq) = true -> Picdate.a_force aq = false ->
      forall act, outcome (Picdate.cli aq) = inr act -> act = Picdate.SysExit 1).
Proof.
  intros Hfs. split; [|split; [|split]].
  - intros i o c Hrun. apply pad_cli_action in Hrun.
    destruct (path_exists _ && is_file _) eqn:Hs; [|discriminate Hrun].
    apply andb_true_iff in Hs as [_ Hs].
    destruct (is_file (Pad.a_dst ap)) eqn:Hd; [|discriminate Hrun].
    rewrite (Hfs _ Hd) in Hrun.
    destruct (Pad.a_force ap); [|discriminate Hrun].
    injection Hrun as -> -> _. auto.
  - intros i o c Hrun. apply picdate_cli_action in Hrun.
    destruct (path_exists _ && is_file _) eqn:Hs; [|discriminate Hrun].
    apply andb_true_iff in Hs as [_ Hs].
    destruct (is_file (Picdate.a_dst aq)) eqn:Hd; [|discriminate Hrun].
    rewrite (Hfs _ Hd) in Hrun.
    destruct (Picdate.a_force aq); [|discriminate Hrun].
    injection Hrun as -> -> _. auto.
  - intros Hs Hf act Hrun. apply pad_cli_action in Hrun.
    rewrite (Hfs _ Hs), Hs, Hf in Hrun.
    destruct (is_file (Pad.a_dst ap)) eqn:Hd; [|exact Hrun].
    now rewrite (Hfs _ Hd) in Hrun.
  - intros Hs Hf act Hrun. apply picdate_cli_action in Hrun.
    rewrite (Hfs _ Hs), Hs, Hf in Hrun.
    destruct (is_file (Picdate.a_dst aq)) eqn:Hd; [|exact Hrun].
    now rewrite (Hfs _ Hd) in Hrun.
Qed.

Lemma pad_font_failed (a : Pad.args F) (e : exn) :
  outcome (Pad.ensure_font (Pad.config_of_args a)) = inl e ->
  outcome (Pad.cli a) = inl e.
Proof.
  intros He. unfold Pad.cli. rewrite !outcome_bind. cbn [emit outcome snd].
  now rewrite He.
Qed.

Lemma picdate_font_failed (a : Picdate.args F) (e : exn) :
  outcome (Picdate.ensure_font (Picdate.config_of_args a)) = inl e ->
  outcome (Picdate.cli a) = inl e.
Proof.
  intros He. unfold Picdate.cli. rewrite !outcome_bind. cbn [emit outcome snd].
  now rewrite He.
Qed.

(** X12. The font is fetched only when it is missing from the cache.  With
  the font in place [cli] only prints; when the font is missing and the
  cache directory cannot be made or the download fails, the exception
  leaves [cli] and neither the worker nor the scheduler is called. *)
Theorem font_fetched_when_missing (ap : Pad.args F) (aq : Picdate.args F) :
  (path_exists (Pad.font_path (Pad.config_of_args ap)) = true ->
   Forall (fun ev => exists msg, ev = Print msg) (trace (Pad.cli ap)))
  /\ (path_exists (Picdate.font_path (Picdate.config_of_args aq)) = true ->
      Forall (fun ev => exists msg, ev = Print msg) (trace (Picdate.cli aq)))
  /\ (forall e,
        path_exists (Pad.font_path (Pad.config_of_args ap)) = false ->
        mkdir_parents (parent (Pad.font_path (Pad.config_of_args ap))) = inl e
        \/ (mkdir_parents (parent (Pad.font_path (Pad.config_of_args ap)))
            = inr tt
            /\ urlretrieve Pad.font_url (Pad.font_path (Pad.config_of_args ap))
               = inl e) ->
        outcome (Pad.cli ap) = inl e)
  /\ (forall e,
        path_exists (Picdate.font_path (Picdate.config_of_args aq)) = false ->
        mkdir_parents (parent (Picdate.font_path (Picdate.config_of_args aq)))
        = inl e
        \/ (mkdir_parents (parent (Picdate.font_path (Picdate.config_of_args aq)))
            = inr tt
            /\ urlretrieve Picdate.font_url
                 (Picdate.font_path (Picdate.config_of_args aq)) = inl e) ->
        outcome (Picdate.cli aq) = inl e).
Proof.
  split; [|split; [|split]].
  - intros Hf. unfold Pad.cli, Pad.ensure_font. rewrite Hf. cbn [negb].
    rewrite bind_emit, bind_ret. cbn [trace fst].
    constructor; [eauto|].
    destruct (path_exists _ && is_file _); [|constructor].
    destruct (negb (is_file _));
      [rewrite bind_emit; cbn; constructor; [eauto|constructor]|].
    destruct (negb _ && path_exists _);
      [rewrite bind_emit; cbn; constructor; [eauto|constructor]|constructor].
  - intros Hf. unfold Picdate.cli, Picdate.ensure_font. rewrite Hf. cbn [negb].
    rewrite bind_emit, bind_ret. cbn [trace fst].
    constructor; [eauto|].
    destruct (path_exists _ && is_file _); [|constructor].
    destruct (negb (is_file _));
      [rewrite bind_emit; cbn; constructor; [eauto|constructor]|].
    destruct (negb _ && path_exists _);
      [rewrite bind_emit; cbn; constructor; [eauto|constructor]|constructor].
  - intros e Hf Hfail. apply pad_font_failed.
    unfold Pad.ensure_font. rewrite Hf. cbn [negb].
    destruct Hfail as [Hm|[Hm Hu]]; unfold bind, call, emit, outcome;
      [rewrite Hm|rewrite Hm, Hu]; reflexivity.
  - intros e Hf Hfail. apply picdate_font_failed.
    unfold Picdate.ensure_font. rewrite Hf. cbn [negb].
    destruct Hfail as [Hm|[Hm Hu]]; unfold bind, call, emit, outcome;
      [rewrite Hm|rewrite Hm, Hu]; reflexivity.
Qed.

End CliFacts.

(* ===================================================================== *)
(** * [tuple_type]                                                       *)
(* ===================================================================== *)

Section TupleFacts.
Variable int : string -> exn + Z.

Lemma replace_char_removed (c : ascii) (s : string) :
  PyStr.replace (String c EmptyString) EmptyString None s = remove_char c s.
Proof.
  unfold PyStr.replace. induction s as [|x s IH]; [reflexivity|].
  cbn [PyStr.replace_scan PyStr.may_replace andb PyStr.used_one
       String.length Nat.pred remove_char].
  rewrite LayoutFacts.prefix_single, IH, Ascii.eqb_sym.
  now destruct (Ascii.eqb x c).
Qed.

Lemma tuple_type_pieces (s : string) :
  tuple_type int s
  = map_int int (PyStr.split "," (remove_char ")" (remove_char "(" s))).
Proof. unfold tuple_type. now rewrite !replace_char_removed. Qed.

Lemma remove_char_app c (a b : string) :
  remove_char c (a ++ b) = remove_char c a ++ remove_char c b.
Proof.
  induction a as [|x a IH]; [reflexivity|].
  change (String x a ++ b) with (String x (a ++ b)).
  cbn [remove_char]. rewrite IH. now destruct (Ascii.eqb x c).
Qed.

Lemma remove_char_absent c (s : string) :
  has_char c s = false -> remove_char c s = s.
Proof.
  induction s as [|x s IH]; [reflexivity|].
  cbn [has_char remove_char]. intros H.
  apply orb_false_iff in H as [Hx Hs]. now rewrite Hx, IH.
Qed.

Lemma has_char_app c (a b : string) :
  has_char c (a ++ b) = has_char c a || has_char c b.
Proof.
  induction a as [|x a IH]; [reflexivity|].
  change (String x a ++ b) with (String x (a ++ b)).
  cbn [has_char]. now rewrite IH, orb_assoc.
Qed.

Lemma has_char_join c sep (ps : list string) :
  has_char c sep = false -> Forall (fun p => has_char c p = false) ps ->
  has_char c (join sep ps) = false.
Proof.
  intros Hsep Hps. induction Hps as [|p ps Hp Hps IH]; [reflexivity|].
  destruct ps as [|q ps]; [exact Hp|].
  change (join sep (p :: q :: ps)) with (p ++ sep ++ join sep (q :: ps)).
  now rewrite !has_char_app, Hp, Hsep, IH.
Qed.

Lemma append_assoc (a b c : string) : (a ++ b) ++ c = a ++ (b ++ c).
Proof.
  induction a as [|x a IH]; [reflexivity|].
  change (String x a ++ b) with (String x (a ++ b)).
  change (String x (a ++ b) ++ c) with (String x ((a ++ b) ++ c)).
  change (String x a ++ (b ++ c)) with (String x (a ++ (b ++ c))).
  now rewrite IH.
Qed.

Lemma append_empty_r (a : string) : a ++ EmptyString = a.
Proof.
  induction a as [|x a IH]; [reflexivity|].
  change (String x a ++ EmptyString) with (String x (a ++ EmptyString)).
  now rewrite IH.
Qed.

Lemma split_on_piece (cur p s : string) :
  has_char "," p = false ->
  PyStr.split_on "," cur (p ++ s) = PyStr.split_on "," (cur ++ p) s.
Proof.
  revert cur. induction p as [|x p IH]; intros cur Hp.
  - now rewrite append_empty_r.
  - cbn [has_char] in Hp. apply orb_false_iff in Hp as [Hx Hp].
    change (String x p ++ s) with (String x (p ++ s)).
    cbn [PyStr.split_on]. rewrite Hx, IH by exact Hp.
    now rewrite append_assoc.
Qed.

Lemma split_join (cur : string) (ps : list string) :
  Forall (fun p => has_char "," p = false) ps ->
  PyStr.split_on "," cur (join "," ps)
  = match ps with
    | [] => [cur]
    | p :: rest => (cur ++ p) :: rest
    end.
Proof.
  intros Hps. revert cur. induction Hps as [|p ps Hp Hps IH]; intros cur;
    [reflexivity|].
  destruct ps as [|q ps].
  - cbn [join]. rewrite <- (append_empty_r p) at 1.
    now rewrite split_on_piece.
  - change (join "," (p :: q :: ps)) with (p ++ "," ++ join "," (q :: ps)).
    rewrite split_on_piece by exact Hp.
    change ("," ++ join "," (q :: ps)) with (String "," (join "," (q :: ps))).
    cbn [PyStr.split_on Ascii.eqb Bool.eqb]. now rewrite IH.
Qed.

Lemma plain_piece_chars (p : string) :
  plain_piece p = true ->
  has_char "," p = false /\ has_char "(" p = false /\ has_char ")" p = false.
Proof.
  unfold plain_piece. intros H.
  apply andb_true_iff in H as [H H3]. apply andb_true_iff in H as [H1 H2].
  now rewrite negb_true_iff in H1, H2, H3.
Qed.

(** X13. A tuple written as its pieces joined by commas, with or without
  the parentheses around it, is read as [int] reads the pieces one by one,
  provided there is at least one piece and no piece holds a comma or a
  parenthesis. *)
Theorem tuple_type_reads_pieces (ps : list string) :
  ps <> [] ->
  forallb plain_piece ps = true ->
  tuple_type int ("(" ++ join "," ps ++ ")") = map_int int ps
  /\ tuple_type int (join "," ps) = map_int int ps.
Proof.
  intros Hne Hps. rewrite forallb_forall in Hps.
  assert (Hc : Forall (fun p => has_char "," p = false) ps).
  { apply List.Forall_forall. intros p Hp. now apply plain_piece_chars, Hps. }
  assert (Ho : has_char "(" (join "," ps) = false).
  { apply has_char_join; [reflexivity|]. apply List.Forall_forall.
    intros p Hp. now apply plain_piece_chars, Hps. }
  assert (Hcl : has_char ")" (join "," ps) = false).
  { apply has_char_join; [reflexivity|]. apply List.Forall_forall.
    intros p Hp. now apply plain_piece_chars, Hps. }
  assert (Hsplit : PyStr.split "," (join "," ps) = ps).
  { unfold PyStr.split. rewrite split_join by exact Hc.
    destruct ps; [contradiction|reflexivity]. }
  rewrite !tuple_type_pieces.
  change ("(" ++ join "," ps ++ ")") with (String "(" (join "," ps ++ ")")).
  cbn [remove_char Ascii.eqb Bool.eqb].
  rewrite !remove_char_app.
  rewrite (remove_char_absent "(" (join "," ps)) by exact Ho.
  rewrite (remove_char_absent ")" (join "," ps)) by exact Hcl.
  cbn [remove_char Ascii.eqb Bool.eqb]. rewrite append_empty_r, Hsplit.
  now split.
Qed.

Lemma split_on_length (cur s : string) :
  List.length (PyStr.split_on "," cur s) = S (count_char "," s).
Proof.
  revert cur. induction s as [|x s IH]; intros cur; [reflexivity|].
  cbn [PyStr.split_on count_char].
  destruct (Ascii.eqb x ","); cbn [List.length]; now rewrite IH.
Qed.

Lemma map_int_length (ps : list string) (ns : list Z) :
  map_int int ps = inr ns -> List.length ns = List.length ps.
Proof.
  revert ns. induction ps as [|p ps IH]; intros ns; cbn [map_int].
  - now intros [= <-].
  - destruct (int p) as [e|n]; [discriminate|].
    destruct (map_int int ps) as [e|ns']; [discriminate|].
    intros [= <-]. cbn. f_equal. now apply IH.
Qed.

Lemma count_removed (c d : ascii) (s : string) :
  Ascii.eqb c d = false ->
  count_char c (remove_char d s) = count_char c s.
Proof.
  intros Hcd. induction s as [|x s IH]; [reflexivity|].
  cbn [remove_char count_char].
  destruct (Ascii.eqb x d) eqn:Hx.
  - apply Ascii.eqb_eq in Hx. subst x. rewrite Ascii.eqb_sym, Hcd. exact IH.
  - cbn [count_char]. now rewrite IH.
Qed.

Lemma split_on_last (cur s : string) :
  PyStr.split_on "," cur (s ++ ",")
  = (PyStr.split_on "," cur s ++ [EmptyString])%list.
Proof.
  revert cur. induction s as [|x s IH]; intros cur; [reflexivity|].
  change (String x s ++ ",") with (String x (s ++ ",")).
  cbn [PyStr.split_on]. destruct (Ascii.eqb x ","); cbn; now rewrite IH.
Qed.

Lemma map_int_empty_piece (ps : list string) (e : exn) :
  int EmptyString = inl e ->
  exists e', map_int int (ps ++ [EmptyString]) = inl e'.
Proof.
  intros He. induction ps as [|p ps [e' IH]]; cbn [app map_int].
  - rewrite He. eauto.
  - destruct (int p) as [e1|n]; [eauto|]. rewrite IH. eauto.
Qed.

(** X14. A tuple that is read has one component more than the text has
  commas, so it is never empty; and since [int] refuses the empty text,
  the empty text and every text that ends with a comma, such as the
  one-element tuple [(7,)], are refused. *)
Theorem tuple_type_components (s : string) :
  (forall ns, tuple_type int s = inr ns ->
              List.length ns = S (count_char "," s))
  /\ (forall e, int EmptyString = inl e ->
        tuple_type int EmptyString = inl e
        /\ (exists e', tuple_type int (s ++ ",") = inl e')
        /\ (exists e', tuple_type int (s ++ ",)") = inl e')).
Proof.
  split.
  - intros ns Hns. rewrite tuple_type_pieces in Hns.
    apply map_int_length in Hns. rewrite Hns. unfold PyStr.split.
    rewrite split_on_length, !count_removed by reflexivity. reflexivity.
  - intros e He. split; [|split].
    + rewrite tuple_type_pieces. cbn. now rewrite He.
    + rewrite tuple_type_pieces, !remove_char_app.
      cbn [remove_char Ascii.eqb Bool.eqb]. unfold PyStr.split.
      rewrite split_on_last. eapply map_int_empty_piece, He.
    + rewrite tuple_type_pieces, !remove_char_app.
      cbn [remove_char Ascii.eqb Bool.eqb]. unfold PyStr.split.
      rewrite split_on_last. eapply map_int_empty_piece, He.
Qed.

End TupleFacts.

(* ===================================================================== *)
(** * Further properties of the geometry, in exact arithmetic            *)
(* ===================================================================== *)

Section CropFacts.
Context {E : Env Q}.
Local Open Scope Q_scope.

(** X17. The ratio zero: every landscape image fails on the division by
  the ratio, while a portrait or square image does not fail and gets no
  height offset.  Floats are read as exact rationals. *)
Theorem zero_ratio_fails_landscape (inpath : string) (cfg : Picdate.config Q)
    (width height : Z) :
  (1 <= width)%Z -> (1 <= height)%Z ->
  Picdate.fine_tune_aspect_ratio cfg <> "none" ->
  fraction_to_float (Picdate.fine_tune_aspect_ratio cfg) = inr 0 ->
  if (width >? height)%Z
  then outcome (Picdate.crop_offsets inpath cfg width height)
       = inl ZeroDivisionError
  else exists offset_w,
         outcome (Picdate.crop_offsets inpath cfg width height)
         = inr (offset_w, 0).
Proof.
  intros Hw Hh Hn Hr.
  unfold Picdate.crop_offsets.
  apply String.eqb_neq in Hn. rewrite Hn, Hr. cbn [negb]. run.
  unfold Picdate.fine_tune. rewrite int_truediv_Q by lia.
  destruct (width >? height)%Z.
  - reflexivity.
  - rewrite !half_excess_Q.
    cbn [of_int QFloat fadd fsub fmul lit_0_01].
    destruct (fgt _ _).
    + run. eexists. destruct (_ || _); now run.
    + assert (Hlt : flt (inject_Z width / inject_Z height)
                        (0 - (1 # 100)) = false).
      { apply not_true_iff_false. intros Hc. apply flt_Q in Hc.
        assert (0 <= inject_Z width / inject_Z height); [|lra].
        apply Qle_shift_div_l.
        - rewrite <- (Zlt_Qlt 0). lia.
        - rewrite Qmult_0_l. rewrite <- (Zle_Qle 0). lia. }
      change (inject_Z 0) with 0. rewrite Hlt. run.
      eexists. reflexivity.
Qed.

End CropFacts.

(* ===================================================================== *)
(** * What a successful run saves                                        *)
(* ===================================================================== *)

Section SaveFacts.
Context {F : Type} {FO : FloatOps F} {E : Env F}.

Lemma bind_returns_inv {A B} (m : M A) (k : A -> M B) (tr : list event) (b : B) :
  bind m k = (tr, inr b) ->
  exists tr1 a tr2,
    m = (tr1, inr a) /\ k a = (tr2, inr b) /\ tr = (tr1 ++ tr2)%list.
Proof.
  destruct m as [tr1 [e|a]]; cbn; [discriminate|].
  destruct (k a) as [tr2 r] eqn:Hk. intros [= <- ->].
  exists tr1, a, tr2. auto.
Qed.

Lemma call_returns_inv {A} (r : exn + A) (tr : list event) (a : A) :
  call r = (tr, inr a) -> r = inr a /\ tr = [].
Proof. now intros [= <- ->]. Qed.

Lemma pad_save_inv img exif o q tr :
  Pad.save_image img exif o q = (tr, inr tt) ->
  exists pre,
    tr = (pre ++ [Save img o q (match exif with
                                | None => None
                                | Some _ => info_exif img
                                end)])%list
    /\ count_saves pre = O
    /\ (exif <> None -> info_exif img <> None).
Proof.
  unfold Pad.save_image.
  destruct (path_exists _); [|destruct (mkdir_parents _) as [e|[]]];
    destruct exif as [m|]; try destruct (info_exif img) as [raw|];
    try destruct (image_save _ _ _ _) as [e'|[]]; cbn; try discriminate;
    intros [= <-];
    first [ exists []; repeat split; congruence
          | eexists [_]; repeat split; congruence ].
Qed.

Lemma picdate_save_inv img exif o q tr :
  Picdate.save_image img exif o q = (tr, inr tt) ->
  exists pre,
    tr = (pre ++ [Save img o q (match exif with
                                | None => None
                                | Some _ => info_exif img
                                end)])%list
    /\ count_saves pre = O
    /\ (exif <> None -> info_exif img <> None).
Proof.
  unfold Picdate.save_image.
  destruct (path_exists _); [|destruct (mkdir_parents _) as [e|[]]];
    destruct exif as [m|]; try destruct (info_exif img) as [raw|];
    try destruct (image_save _ _ _ _) as [e'|[]]; cbn; try discriminate;
    intros [= <-];
    first [ exists []; repeat split; congruence
          | eexists [_]; repeat split; congruence ].
Qed.

Lemma pad_prepare_inv inpath (cp : Pad.config F) (p : Pad.prepared) :
  outcome (Pad.prepare inpath cp) = inr p ->
  exists opened,
    image_open inpath = inr opened
    /\ getexif opened = inr (Pad.p_exif p)
    /\ Pad.p_img p = opened.
Proof.
  unfold Pad.prepare.
  destruct (image_open inpath) as [e|opened]; [discriminate|]. run.
  destruct (size opened) as [w h].
  destruct (getexif opened) as [e|exif] eqn:Hexif; [discriminate|]. run.
  intros Hrun.
  apply bind_inr_inv in Hrun as (? & date & _ & Hrun).
  apply bind_inr_inv in Hrun as (? & txt & _ & Hrun).
  injection Hrun as <-. exists opened. cbn. auto.
Qed.

Lemma picdate_resolve_inv inpath img exif tr date img' :
  Picdate.resolve_date inpath img exif = (tr, inr (date, img')) ->
  if lacks_original exif then img' = img else exif_transpose img = inr img'.
Proof.
  unfold Picdate.resolve_date. destruct (lacks_original exif).
  - rewrite bind_emit.
    destruct (st_mtime inpath) as [e|t]; [discriminate|]. run.
    destruct (fromtimestamp t) as [e|d]; [discriminate|]. run.
    now intros [= _ _ <-].
  - destruct (exif_original exif) as [e|v]; [discriminate|]. run.
    destruct (stamp_of_value v) as [e|stamp]; [discriminate|]. run.
    destruct (fromisoformat stamp) as [e|d]; [discriminate|]. run.
    destruct (exif_transpose img) as [e|img'']; [discriminate|]. run.
    now intros [= _ _ <-].
Qed.

Lemma picdate_prepare_inv inpath (cq : Picdate.config F)
    (p : Picdate.prepared) :
  outcome (Picdate.prepare inpath cq) = inr p ->
  exists opened,
    image_open inpath = inr opened
    /\ getexif opened = inr (Picdate.p_exif p)
    /\ (if lacks_original (Picdate.p_exif p) then Picdate.p_img p = opened
        else exif_transpose opened = inr (Picdate.p_img p)).
Proof.
  unfold Picdate.prepare.
  destruct (image_open inpath) as [e|opened]; [discriminate|]. run.
  destruct (getexif opened) as [e|exif] eqn:Hexif; [discriminate|]. run.
  intros Hrun.
  apply bind_inr_inv in Hrun as (? & [date img'] & Hres & Hrun).
  apply bind_inr_inv in Hrun as (? & txt & _ & Hrun).
  apply picdate_resolve_inv in Hres.
  destruct (size img') as [w h]. injection Hrun as <-.
  exists opened. cbn. auto.
Qed.

(** X18. What a successful run saves.  The last thing it does is to save
  to the output path, at the configured quality, the image that
  [draw.text] gave for the prepared image, with the date text, the
  configured anchor, colours and stroke, the font loaded at the computed
  size, and the computed point.  The prepared image is the opened one,
  except that in picdate it is the opened image turned by
  [exif_transpose] when the date came from the metadata.  The block
  [info["exif"]] of the image saved is embedded exactly when the opened
  image had an EXIF dictionary, and nothing was saved before. *)
Theorem metadata_passed_through (inpath outpath : string)
    (cp : Pad.config F) (cq : Picdate.config F) (tr : list event) :
  (Pad.add_date_to_img_body inpath outpath cp = (tr, inr tt) ->
   exists pre opened p f img,
     image_open inpath = inr opened
     /\ getexif opened = inr (Pad.p_exif p)
     /\ outcome (Pad.prepare inpath cp) = inr p
     /\ Pad.p_img p = opened
     /\ truetype (Pad.font_path cp)
                 (Pad.font_size (Pad.p_width p) (Pad.p_height p)) = inr f
     /\ draw_text (Pad.p_img p)
          (mk_draw_args
             (fmul (of_int (Pad.p_width p)) (Pad.pos_w cp),
              fmul (of_int (Pad.p_height p)) (Pad.pos_h cp))
             (Pad.p_text p) (Pad.text_anchor cp) f (Pad.text_color cp)
             (Pad.stroke_width cp) (Pad.stroke_color cp)) = inr img
     /\ tr = (pre ++ [Save img outpath (Pad.quality cp)
                        (match Pad.p_exif p with
                         | None => None
                         | Some _ => info_exif img
                         end)])%list
     /\ count_saves pre = O
     /\ (Pad.p_exif p <> None -> info_exif img <> None))
  /\ (Picdate.add_date_to_img_body inpath outpath cq = (tr, inr tt) ->
      exists pre opened p offset_w offset_h px f img,
        image_open inpath = inr opened
        /\ getexif opened = inr (Picdate.p_exif p)
        /\ outcome (Picdate.prepare inpath cq) = inr p
        /\ (if lacks_original (Picdate.p_exif p)
            then Picdate.p_img p = opened
            else exif_transpose opened = inr (Picdate.p_img p))
        /\ outcome (Picdate.crop_offsets inpath cq (Picdate.p_width p)
                      (Picdate.p_height p)) = inr (offset_w, offset_h)
        /\ Picdate.font_size cq (Picdate.p_width p) (Picdate.p_height p)
           = inr px
        /\ truetype (Picdate.font_path cq) px = inr f
        /\ draw_text (Picdate.p_img p)
             (mk_draw_args
                (Picdate.draw_point cq (Picdate.p_width p)
                   (Picdate.p_height p) offset_w offset_h)
                (Picdate.p_text p) (Picdate.text_anchor cq) f
                (Picdate.text_color cq) (Picdate.stroke_width cq)
                (Picdate.stroke_color cq)) = inr img
        /\ tr = (pre ++ [Save img outpath (Picdate.quality cq)
                           (match Picdate.p_exif p with
                            | None => None
                            | Some _ => info_exif img
                            end)])%list
        /\ count_saves pre = O
        /\ (Picdate.p_exif p <> None -> info_exif img <> None)).
Proof.
  split.
  - unfold Pad.add_date_to_img_body. intros Hrun.
    apply bind_returns_inv in Hrun as (tr1 & p & tr2 & Hp & Hfin & ->).
    assert (Hprep : outcome (Pad.prepare inpath cp) = inr p) by now rewrite Hp.
    destruct (pad_prepare_inv _ _ _ Hprep) as (opened & Hopen & Hexif & Himg).
    unfold Pad.finish in Hfin.
    apply bind_returns_inv in Hfin as (t1 & f & t2 & Hf & Hfin & ->).
    apply call_returns_inv in Hf as [Hf ->].
    apply bind_returns_inv in Hfin as (t3 & img & t4 & Hd & Hfin & ->).
    apply call_returns_inv in Hd as [Hd ->].
    apply pad_save_inv in Hfin as (pre & -> & Hpre & Hraw).
    exists (tr1 ++ pre)%list, opened, p, f, img. cbn [app].
    split; [exact Hopen|]. split; [exact Hexif|]. split; [exact Hprep|].
    split; [exact Himg|]. split; [exact Hf|]. split; [exact Hd|].
    split; [now rewrite app_assoc|].
    split; [|exact Hraw].
    rewrite count_saves_app, Hpre, Nat.add_0_r.
    pose proof (pad_prepare_quiet inpath cp) as Hq.
    unfold writes_nothing in Hq. now rewrite Hp in Hq.
  - unfold Picdate.add_date_to_img_body. intros Hrun.
    apply bind_returns_inv in Hrun as (tr1 & p & tr2 & Hp & Hfin & ->).
    assert (Hprep : outcome (Picdate.prepare inpath cq) = inr p)
      by now rewrite Hp.
    destruct (picdate_prepare_inv _ _ _ Hprep)
      as (opened & Hopen & Hexif & Himg).
    unfold Picdate.finish in Hfin.
    apply bind_returns_inv in Hfin as (t0 & [ow oh] & t0' & Hc & Hfin & ->).
    apply bind_returns_inv in Hfin as (t1 & px & t2 & Hpx & Hfin & ->).
    apply call_returns_inv in Hpx as [Hpx ->].
    apply bind_returns_inv in Hfin as (t3 & f & t4 & Hf & Hfin & ->).
    apply call_returns_inv in Hf as [Hf ->].
    apply bind_returns_inv in Hfin as (t5 & img & t6 & Hd & Hfin & ->).
    apply call_returns_inv in Hd as [Hd ->].
    apply picdate_save_inv in Hfin as (pre & -> & Hpre & Hraw).
    exists (tr1 ++ t0 ++ pre)%list, opened, p, ow, oh, px, f, img.
    rewrite Hc. cbn [outcome snd app].
    split; [exact Hopen|]. split; [exact Hexif|]. split; [exact Hprep|].
    split; [exact Himg|]. split; [reflexivity|].
    split; [exact Hpx|]. split; [exact Hf|]. split; [exact Hd|].
    split; [now rewrite <- !app_assoc|].
    split; [|exact Hraw].
    rewrite !count_saves_app, Hpre, Nat.add_0_r.
    pose proof (picdate_prepare_quiet inpath cq) as Hq.
    unfold writes_nothing in Hq. rewrite Hp in Hq. cbn [trace fst] in Hq.
    pose proof (crop_offsets_quiet inpath cq (Picdate.p_width p)
                  (Picdate.p_height p)) as Hq'.
    unfold writes_nothing in Hq'. rewrite Hc in Hq'. cbn [trace fst] in Hq'.
    now rewrite Hq, Hq'.
Qed.


End SaveFacts.

(* ===================================================================== *)
(** * The further properties at work in the sample world                 *)
(* ===================================================================== *)

Lemma ref_files_exist (w : Ref.world) (p : string) :
  is_file (Env := Ref.env w) p = true -> path_exists (Env := Ref.env w) p = true.
Proof. cbn. now destruct (Ref.lookup_file p (Ref.files w)). Qed.

(** The task for the panorama in a directory run. *)
Lemma submitted_tasks_checked_witness :
  Scheduler.in_path
    (Scheduler.mk_task "/in/wide.jpg" "/out/wide.jpg" (Sample.picdate_config "2/3"))
  <> "/out/wide.jpg"
  /\ path_exists (Env := Sample.env) "/out/wide.jpg" = false.
Proof.
  destruct (submitted_tasks_checked (E := Sample.env) "/in" "/out" false
              (Sample.picdate_config "2/3")
              (Scheduler.allowed_exts "jpg,jpeg,png,tiff")
              ["/in/notes.txt"; "/in/wide.jpg"]
              (Scheduler.mk_task "/in/wide.jpg" "/out/wide.jpg"
                 (Sample.picdate_config "2/3")))
    as (Hne & _ & Hfree & _).
  - vm_compute. now left.
  - split; [exact Hne|]. now apply Hfree.
Defined.


Lemma mirror_keeps_remainder_witness :
  Scheduler.mirror (E := Sample.env) "/in" "/out" ("/in" ++ "/wide.jpg")
  = "/out" ++ "/wide.jpg".
Proof.
  apply (mirror_keeps_remainder (E := Sample.env) "/in" "/out" "/wide.jpg");
    [discriminate|reflexivity].
Defined.

Lemma plain_outputs_distinct_witness :
  NoDup (map Scheduler.out_path
           (snd (Scheduler.submit_tasks (E := Sample.env) "/in" "/out" true
                   (Sample.picdate_config "2/3")
                   (Scheduler.allowed_exts "jpg,jpeg,png,tiff")
                   ["/in/wide.jpg"; "/in/dashed.jpg"]))).
Proof.
  apply (plain_outputs_distinct (E := Sample.env) "/in" "/out" true
           (Sample.picdate_config "2/3")
           (Scheduler.allowed_exts "jpg,jpeg,png,tiff")
           ["/in/wide.jpg"; "/in/dashed.jpg"]).
  - discriminate.
  - intros file [<-|[<-|[]]].
    + exists "/wide.jpg". split; reflexivity.
    + exists "/dashed.jpg". split; reflexivity.
  - vm_compute. constructor.
    + intros H. apply list_elem_of_In in H. destruct H as [H|[]]. discriminate H.
    + constructor; [|constructor].
      intros H. apply list_elem_of_In in H. destruct H.
Defined.

Lemma await_prints_timeouts_witness :
  Scheduler.await [Scheduler.TimeoutError; Scheduler.Got (inr tt);
                   Scheduler.TimeoutError; Scheduler.KeyboardInterrupt;
                   Scheduler.TimeoutError]
  = ([Print "TLE"; Print "TLE"], inr (Some 1)).
Proof.
  apply (await_prints_timeouts
           [Scheduler.TimeoutError; Scheduler.Got (inr tt);
            Scheduler.TimeoutError; Scheduler.KeyboardInterrupt;
            Scheduler.TimeoutError]).
  intros e [H|[H|[H|[H|[H|[]]]]]]; discriminate H.
Defined.

Lemma same_date_in_both_witness :
  outcome (Pad.resolve_date (E := Sample.env) "/in/in.jpg"
             (Some Sample.photo_tags))
  = inr (mk_resolved (mk_datetime 2023 5 1 10 0 0 0) metadataOriginal).
Proof.
  apply (proj1 (same_date_in_both (E := Sample.env) "/in/in.jpg" Sample.photo
                  (Some Sample.photo_tags))
               (mk_resolved (mk_datetime 2023 5 1 10 0 0 0) metadataOriginal)
               (mk_image (3000, 4000)
                         (inr (Some (delete Ref.Orientation Sample.photo_tags)))
                         (Some "Exif"))).
  reflexivity.
Defined.

Lemma single_file_needs_force_witness :
  outcome (Picdate.cli (E := Sample.env)
             (Sample.picdate_file_args "/in/in.jpg" "/in/out.jpg" true))
  = inr (Picdate.RunWorker "/in/in.jpg" "/in/out.jpg"
           (Sample.picdate_config "2/3"))
  /\ forall act,
       outcome (Pad.cli (E := Sample.env)
                  (Sample.pad_args "/in/in.jpg" "/in/out.jpg" false))
       = inr act ->
       act = Pad.SysExit 1.
Proof.
  split; [vm_compute; reflexivity|].
  apply (proj1 (proj2 (proj2
           (single_file_needs_force (E := Sample.env)
              (Sample.pad_args "/in/in.jpg" "/in/out.jpg" false)
              (Sample.picdate_file_args "/in/in.jpg" "/in/out.jpg" true)
              (ref_files_exist Sample.world)))));
    reflexivity.
Defined.

Lemma font_fetched_when_missing_witness :
  outcome (Picdate.cli (E := Sample.offline)
             (Sample.picdate_file_args "/in" "/out" false))
  = inl OSError
  /\ outcome (Pad.cli (E := Sample.offline) (Sample.pad_args "/in" "/out" false))
     = inl OSError.
Proof.
  split.
  - apply (proj2 (proj2 (proj2
             (font_fetched_when_missing (E := Sample.offline)
                (Sample.pad_args "/in" "/out" false)
                (Sample.picdate_file_args "/in" "/out" false))))
           OSError); [reflexivity|right; split; reflexivity].
  - apply (proj1 (proj2 (proj2
             (font_fetched_when_missing (E := Sample.offline)
                (Sample.pad_args "/in" "/out" false)
                (Sample.picdate_file_args "/in" "/out" false))))
           OSError); [reflexivity|right; split; reflexivity].
Defined.

Lemma tuple_type_reads_pieces_witness :
  tuple_type RefInt.int "(255, 149, 21)" = inr [255; 149; 21]
  /\ tuple_type RefInt.int "255, 149, 21" = inr [255; 149; 21].
Proof.
  apply (tuple_type_reads_pieces RefInt.int ["255"; " 149"; " 21"]);
    [discriminate|reflexivity].
Defined.

Lemma tuple_type_components_witness :
  List.length [255; 149; 21] = S (count_char "," "(255,149,21)")
  /\ exists e, tuple_type RefInt.int ("(7" ++ ",)") = inl e.
Proof.
  split.
  - apply (proj1 (tuple_type_components RefInt.int "(255,149,21)")).
    reflexivity.
  - apply (proj2 (proj2 (proj2 (tuple_type_components RefInt.int "(7")
                                  ValueError eq_refl))).
Defined.

Lemma zero_ratio_fails_landscape_witness :
  outcome (Picdate.crop_offsets (E := Sample.env) "/in/wide.jpg"
             (Sample.picdate_config "0") 4000 2000)
  = inl ZeroDivisionError
  /\ exists offset_w,
       outcome (Picdate.crop_offsets (E := Sample.env) "/in/in.jpg"
                  (Sample.picdate_config "0") 3000 4000)
       = inr (offset_w, 0%Q).
Proof.
  split.
  - apply (zero_ratio_fails_landscape (E := Sample.env) "/in/wide.jpg"
             (Sample.picdate_config "0") 4000 2000);
      try reflexivity; discriminate.
  - apply (zero_ratio_fails_landscape (E := Sample.env) "/in/in.jpg"
             (Sample.picdate_config "0") 3000 4000);
      try reflexivity; discriminate.
Defined.


Lemma metadata_passed_through_witness :
  exists pre opened p offset_w offset_h px f img,
    image_open (Env := Sample.env) "/in/wide.jpg" = inr opened
    /\ getexif opened = inr (Picdate.p_exif p)
    /\ outcome (Picdate.prepare (E := Sample.env) "/in/wide.jpg"
                  (Sample.picdate_config "2/3")) = inr p
    /\ (if lacks_original (Picdate.p_exif p) then Picdate.p_img p = opened
        else exif_transpose (Env := Sample.env) opened
             = inr (Picdate.p_img p))
    /\ outcome (Picdate.crop_offsets (E := Sample.env) "/in/wide.jpg"
                  (Sample.picdate_config "2/3") (Picdate.p_width p)
                  (Picdate.p_height p)) = inr (offset_w, offset_h)
    /\ Picdate.font_size (Sample.picdate_config "2/3") (Picdate.p_width p)
         (Picdate.p_height p) = inr px
    /\ truetype (Env := Sample.env)
         (Picdate.font_path (Sample.picdate_config "2/3")) px = inr f
    /\ draw_text (Env := Sample.env) (Picdate.p_img p)
         (mk_draw_args
            (Picdate.draw_point (Sample.picdate_config "2/3")
               (Picdate.p_width p) (Picdate.p_height p) offset_w offset_h)
            (Picdate.p_text p) "rb" f [255; 149; 21] 1 [242; 97; 0])
       = inr img
    /\ [Print (Picdate.fine_tune_notice "/in/wide.jpg"); Mkdir "/out";
        Save Sample.panorama "/out/wide.jpg" 95 (Some "Exif")]
       = (pre ++ [Save img "/out/wide.jpg" 95
                    (match Picdate.p_exif p with
                     | None => None
                     | Some _ => info_exif img
                     end)])%list
    /\ count_saves pre = O
    /\ (Picdate.p_exif p <> None -> info_exif img <> None).
Proof.
  apply (proj2 (metadata_passed_through (E := Sample.env) "/in/wide.jpg"
                  "/out/wide.jpg" Sample.pad_config
                  (Sample.picdate_config "2/3")
                  [Print (Picdate.fine_tune_notice "/in/wide.jpg");
                   Mkdir "/out";
                   Save Sample.panorama "/out/wide.jpg" 95 (Some "Exif")])).
  vm_compute. reflexivity.
Defined.
